(** * mproc: the /proc/net/dev sampler of pkg/mproc/netdev.go

    A shallow embedding of [readNetDev] (the counter reader) and of
    [calculate] (the sampler loop), with the properties of the
    specification stated and proved over it. *)

From stdpp Require Import gmap strings list fin_maps.
From Stdlib Require Import ZArith Lia Ascii.

Local Open Scope Z_scope.

(** ** Go's int64

    An [int64] is a [Z] in the range [-2^63, 2^63); arithmetic wraps
    around silently, and division truncates toward zero and panics on a
    zero divisor. *)

Module Int64.

Definition min_int : Z := - 2 ^ 63.
Definition max_int : Z := 2 ^ 63 - 1.

Definition in_range (z : Z) : Prop := min_int <= z <= max_int.

Definition wrap (z : Z) : Z := (z + 2 ^ 63) mod 2 ^ 64 - 2 ^ 63.

Definition add (a b : Z) : Z := wrap (a + b).
Definition sub (a b : Z) : Z := wrap (a - b).

(** [a / b] of Go: [None] is the run-time panic "integer divide by
    zero"; the quotient truncates toward zero. *)
Definition quo (a b : Z) : option Z :=
  if b =? 0 then None else Some (wrap (Z.quot a b)).

End Int64.

(** ** Go's float64, as far as [Duration.Seconds] needs it

    Every finite binary64 value is an integer multiple of 2^-1074, so a
    non-negative finite float is represented by the number of such units
    it holds.  An arithmetic operation computes the exact rational result
    and rounds it to the nearest value with a 53-bit significand, ties to
    even.  Overflow to infinity is not represented: the operands met here
    stay below 2^64. *)

Module Float64.

Definition unit_exp : Z := 1074.

(** 1.0 in units. *)
Definition one : Z := 2 ^ unit_exp.

(** The spacing of the floats around the value of [v] units: the
    significand keeps the 53 leading bits; in the subnormal range the
    spacing is one unit. *)
Definition ulp (v : Z) : Z := 2 ^ Z.max 0 (Z.log2 v - 52).

(** The integer nearest to [a / b], ties to the even one. *)
Definition rne (a b : Z) : Z :=
  let q := a / b in
  let r := a mod b in
  if 2 * r <? b then q
  else if b <? 2 * r then q + 1
  else if Z.even q then q else q + 1.

(** The float nearest to the rational [a / b] units. *)
Definition round (a b : Z) : Z :=
  let u := ulp (a / b) in rne a (b * u) * u.

(** [float64(n)] for an integer [n >= 0]. *)
Definition of_int (n : Z) : Z := round (n * one) 1.

Definition add (x y : Z) : Z := round (x + y) 1.

Definition div (x y : Z) : Z := round (x * one) y.

(** [int64(x)] for a float [x >= 0] below 2^63: the fraction is
    dropped. *)
Definition to_int (x : Z) : Z := x / one.

End Float64.

(** ** time.Duration

    A [Duration] is an int64 count of nanoseconds. *)

Module time.

Definition Second : Z := 1000000000.

(** [func (d Duration) Seconds() float64] for [d >= 0]:
    [sec := d / Second; nsec := d % Second;
     return float64(sec) + float64(nsec)/1e9]. *)
Definition Seconds (d : Z) : Z :=
  let sec := Z.quot d Second in
  let nsec := Z.rem d Second in
  Float64.add (Float64.of_int sec)
              (Float64.div (Float64.of_int nsec) (Float64.of_int 1000000000)).

(** [int64(d.Seconds())].  Truncated division and rounding to nearest
    are both symmetric around zero, so a negative duration gives the
    opposite of what its absolute value gives. *)
Definition SecondsInt64 (d : Z) : Z :=
  Z.sgn d * Float64.to_int (Seconds (Z.abs d)).

End time.

(** ** The string functions the reader calls

    A Go string is a sequence of bytes: [string] with one [ascii] per
    byte. *)

Module strings.

Local Open Scope string_scope.

(** [strings.Contains(s, substr)]. *)
Fixpoint Contains (s substr : string) : bool :=
  String.prefix substr s ||
  match s with
  | EmptyString => false
  | String _ s' => Contains s' substr
  end.

Definition byte_in (c : ascii) (cutset : string) : bool :=
  existsb (Ascii.eqb c) (String.list_ascii_of_string cutset).

Fixpoint TrimLeft (s cutset : string) : string :=
  match s with
  | EmptyString => EmptyString
  | String c s' => if byte_in c cutset then TrimLeft s' cutset else s
  end.

Fixpoint TrimRight (s cutset : string) : string :=
  match s with
  | EmptyString => EmptyString
  | String c s' =>
      match TrimRight s' cutset with
      | EmptyString => if byte_in c cutset then EmptyString else String c EmptyString
      | t => String c t
      end
  end.

(** [strings.Trim(s, cutset)] for a cutset of ASCII bytes: the leading
    and the trailing bytes of the cutset are removed. *)
Definition Trim (s cutset : string) : string :=
  TrimRight (TrimLeft s cutset) cutset.

(** [asciiSpace[c] == 1]: tab, newline, vertical tab, form feed,
    carriage return and space. *)
Definition asciiSpace (c : ascii) : bool :=
  let n := N_of_ascii c in
  ((9 <=? n) && (n <=? 13) || (n =? 32))%N.

(** The width in bytes of the white space character [s] starts with, 0
    when it starts with none.  White space is what [unicode.IsSpace]
    accepts: tab, newline, vertical tab, form feed, carriage return and
    space, and in UTF-8 U+0085, U+00A0, U+1680, U+2000 to U+200A, U+2028,
    U+2029, U+202F, U+205F and U+3000. *)
Definition space_width (s : string) : nat :=
  match s with
  | EmptyString => 0
  | String c r =>
      let n := N_of_ascii c in
      if asciiSpace c then 1
      else
        match r with
        | String c2 r2 =>
            let n2 := N_of_ascii c2 in
            if (n =? 194)%N then
              if ((n2 =? 133) || (n2 =? 160))%N then 2 else 0
            else
              match r2 with
              | String c3 _ =>
                  let n3 := N_of_ascii c3 in
                  if ((n =? 225) && (n2 =? 154) && (n3 =? 128))%N then 3
                  else if ((n =? 226) && (n2 =? 128) &&
                           ((128 <=? n3) && (n3 <=? 138) || (n3 =? 168) ||
                            (n3 =? 169) || (n3 =? 175)))%N then 3
                  else if ((n =? 226) && (n2 =? 129) && (n3 =? 159))%N then 3
                  else if ((n =? 227) && (n2 =? 128) && (n3 =? 128))%N then 3
                  else 0
              | EmptyString => 0
              end
        | EmptyString => 0
        end
  end%nat.

(** The field being collected, if any, ends here. *)
Definition flush (cur : option string) : list string :=
  match cur with
  | Some f => [f]
  | None => []
  end.

Definition push (cur : option string) (c : ascii) : option string :=
  Some (default EmptyString cur ++ String c EmptyString).

(** [skip] counts the bytes still to pass of the white space character
    being crossed.  A byte that opens no white space character joins
    the current field: the lead bytes of the multi-byte white space
    characters are no continuation bytes, so the decoder of Go reaches
    each of them at the start of a character. *)
Fixpoint fields_from (skip : nat) (cur : option string) (s : string) : list string :=
  match s with
  | EmptyString => flush cur
  | String c s' =>
      match skip with
      | S k => fields_from k cur s'
      | O =>
          match space_width s with
          | O => fields_from 0 (push cur c) s'
          | S k => flush cur ++ fields_from k None s'
          end
      end
  end.

(** [strings.Fields(s)]: the maximal runs of [s] free of white space. *)
Definition Fields (s : string) : list string := fields_from 0 None s.

(** A run of ASCII white space. *)
Definition is_blank (s : string) : Prop :=
  Forall (fun c => asciiSpace c = true) (String.list_ascii_of_string s).

(** A field as a well-formed line has them: ASCII bytes, at least one,
    none of them white space. *)
Definition is_token (s : string) : Prop :=
  s <> EmptyString /\
  Forall (fun c => asciiSpace c = false /\ (N_of_ascii c < 128)%N)
         (String.list_ascii_of_string s).

Definition colonless (s : string) : Prop :=
  Forall (fun c => c <> ":"%char) (String.list_ascii_of_string s).

(** The text of fields, each after its separator. *)
Fixpoint spaced (pairs : list (string * string)) : string :=
  match pairs with
  | [] => EmptyString
  | (sep, field) :: rest => sep ++ field ++ spaced rest
  end.

(** None of the first [k] bytes of [s] is a colon. *)
Fixpoint colon_free (k : nat) (s : string) : Prop :=
  match k, s with
  | S k', String c s' => c <> ":"%char /\ colon_free k' s'
  | _, _ => True
  end.

End strings.

Module slices.

(** [slices.Contains(s, v)]. *)
Fixpoint Contains (s : list string) (v : string) : bool :=
  match s with
  | [] => false
  | x :: s' => String.eqb x v || Contains s' v
  end.

End slices.

(** ** bufio.Scanner with the default line splitting *)

Definition error : Type := string.

Module bufio.

Local Open Scope string_scope.

Definition MaxScanTokenSize : Z := 64 * 1024.

Definition ErrTooLong : error := "bufio.Scanner: token too long".

Definition newline : ascii := "010"%char.
Definition carriage_return : ascii := "013"%char.

(** The text cut at every newline; the last piece is what follows the
    last newline. *)
Fixpoint split_lines (data : string) : list string :=
  match data with
  | EmptyString => [EmptyString]
  | String c d =>
      if Ascii.eqb c newline then EmptyString :: split_lines d
      else
        match split_lines d with
        | l :: ls => String c l :: ls
        | [] => [String c EmptyString]
        end
  end.

(** An unterminated last line is a token only when it is not empty. *)
Fixpoint raw_lines_of (pieces : list string) : list string :=
  match pieces with
  | [] => []
  | [EmptyString] => []
  | l :: ls => l :: raw_lines_of ls
  end.

Fixpoint dropCR (l : string) : string :=
  match l with
  | EmptyString => EmptyString
  | String c EmptyString => if Ascii.eqb c carriage_return then EmptyString else l
  | String c l' => String c (dropCR l')
  end.

(** The tokens [Scan] delivers, and whether it stopped at a line that
    fills the buffer of [MaxScanTokenSize] bytes. *)
Fixpoint scan (raw : list string) : list string * bool :=
  match raw with
  | [] => ([], false)
  | l :: ls =>
      if (MaxScanTokenSize <=? Z.of_nat (String.length l))%Z then ([], true)
      else let '(ts, long) := scan ls in (dropCR l :: ts, long)
  end.

End bufio.

(** ** The counter source

    What [os.Open] and the reads of one pass find at the configured
    path. *)

(** [NoFile e]: [os.Open] fails with [e].  [File data rderr]: the file
    opens and its reads deliver [data], then the end of the file
    ([rderr = None]) or a read error ([rderr = Some e]). *)
Inductive file : Type :=
| NoFile (e : error)
| File (data : string) (rderr : option error).

(** The lines [scanner.Scan] yields for a source, and [scanner.Err()]
    after the last one: after a read error the scanner still delivers
    what it has buffered, the unterminated last line included. *)
Definition Scanner (data : string) (rderr : option error) : list string * option error :=
  let '(ts, long) := bufio.scan (bufio.raw_lines_of (bufio.split_lines data)) in
  (ts, if long then Some bufio.ErrTooLong else rderr).

(** What a Go call ends with: a value, a returned error, or a panic. *)
Inductive result (A : Type) : Type :=
| Ok (a : A)
| Err (e : error)
| Panic.
Arguments Ok {A} a.
Arguments Err {A} e.
Arguments Panic {A}.

(** ** The data of the package *)

Record tsNetDevInfo : Type := {
  Bytes : Z;
  Packets : Z;
  Errs : Z;
  Drop : Z;
  FIFO : Z;
  Frame : Z;
  Compressed : Z;
  Multicast : Z;
  Colls : Z;
  Carrier : Z
}.

Record tsNetDev : Type := {
  Name : string;
  Transmit : tsNetDevInfo;
  Receive : tsNetDevInfo
}.

(** A nil slice is [None]; [Some []] is a slice that is empty but not
    nil. *)
Definition slice (A : Type) : Type := option (list A).

Module TsCallData.
Record t : Type := {
  BytesTx : Z;
  BytesRx : Z;
  Interval : Z;
  Interfaces : slice string;
  Name : string
}.
End TsCallData.

(** [netDevArgs] without its callback: a call of the callback is an
    effect of the loop (see [effect]). *)
Module netDevArgs.
Record t : Type := {
  Name : string;
  Interval : Z;
  Interfaces : slice string;
  Path : string
}.
End netDevArgs.

(** ** The helpers of the packages mfunc and mto *)

Module mfunc.

(** Modelled from the spec: [mfunc.NewCounter] (package mfunc is not
    among the sources).  The fields are taken "positionally" and the
    counter starts where the reader says, at 1: the closure returns its
    start value first and one more at each call.  The state of the
    closure is the next value. *)
Definition NewCounter (start : nat) : nat := start.

Definition count (c : nat) : nat * nat := (c, S c).

End mfunc.

Module mto.

Local Open Scope string_scope.

Definition digit (c : ascii) : option Z :=
  let n := N_of_ascii c in
  if ((48 <=? n) && (n <=? 57))%N then Some (Z.of_N n - 48) else None.

Fixpoint digits (acc : Z) (s : string) : option Z :=
  match s with
  | EmptyString => Some acc
  | String c s' =>
      match digit c with
      | Some d => digits (10 * acc + d) s'
      | None => None
      end
  end.

(** Modelled from the spec: [mto.Int64] (package mto is not among the
    sources).  "Non-numeric or malformed fields are coerced to zero":
    a signed decimal integer that fits an int64 is converted, anything else
    gives 0. *)
Definition Int64 (s : string) : Z :=
  let v :=
    match s with
    | EmptyString => None
    | String "-" (String c r) => Z.opp <$> digits 0 (String c r)
    | String "+" (String c r) => digits 0 (String c r)
    | _ => digits 0 s
    end in
  match v with
  | Some z => if ((Int64.min_int <=? z) && (z <=? Int64.max_int))%Z then z else 0
  | None => 0
  end.

End mto.

(** ** The counter reader: [readNetDev] *)

(** The statement being run holds a counter closure and may panic on an
    index out of range: a computation takes the state of the closure and
    gives a value and the next state, or [None] for the panic. *)
Definition reading (A : Type) : Type := nat -> option (A * nat).

#[global] Instance reading_ret : MRet reading :=
  fun A a c => Some (a, c).

#[global] Instance reading_bind : MBind reading :=
  fun A B f m c =>
    match m c with
    | Some (a, c') => f a c'
    | None => None
    end.

(** [count()] *)
Definition count : reading nat := fun c => Some (mfunc.count c).

(** [fields[i]] *)
Definition index (fields : list string) (i : nat) : reading string :=
  fun c => match fields !! i with
           | Some s => Some (s, c)
           | None => None
           end.

Definition filesystem : Type := string -> file.

Section Reader.

(** [mto.Int64], of a package that is not among the sources. *)
Variable toInt64 : string -> Z.

(** [mto.Int64(fields[count()])] *)
Definition next_counter (fields : list string) : reading Z :=
  i ← count; s ← index fields i; mret (toInt64 s).

(** The composite literal [tsNetDev{...}]: its sixteen operands are
    evaluated in the order they are written. *)
Definition iface_of (fields : list string) (ifname : string) : reading tsNetDev :=
  rBytes ← next_counter fields;
  rPackets ← next_counter fields;
  rErrs ← next_counter fields;
  rDrop ← next_counter fields;
  rFIFO ← next_counter fields;
  rFrame ← next_counter fields;
  rCompressed ← next_counter fields;
  rMulticast ← next_counter fields;
  tBytes ← next_counter fields;
  tPackets ← next_counter fields;
  tErrs ← next_counter fields;
  tDrop ← next_counter fields;
  tFIFO ← next_counter fields;
  tColls ← next_counter fields;
  tCarrier ← next_counter fields;
  tCompressed ← next_counter fields;
  mret {| Name := ifname;
          Receive := {| Bytes := rBytes; Packets := rPackets; Errs := rErrs;
                        Drop := rDrop; FIFO := rFIFO; Frame := rFrame;
                        Compressed := rCompressed; Multicast := rMulticast;
                        Colls := 0; Carrier := 0 |};
          Transmit := {| Bytes := tBytes; Packets := tPackets; Errs := tErrs;
                         Drop := tDrop; FIFO := tFIFO; Frame := 0;
                         Compressed := tCompressed; Multicast := 0;
                         Colls := tColls; Carrier := tCarrier |} |}.

(** [n.args.Interfaces != nil && !slices.Contains(n.args.Interfaces, ifname)] *)
Definition filtered_out (args : netDevArgs.t) (ifname : string) : bool :=
  match netDevArgs.Interfaces args with
  | Some l => negb (slices.Contains l ifname)
  | None => false
  end.

(** One turn of the [for scanner.Scan()] loop on [line]: the map after
    the turn, or [None] when the turn panics. *)
Definition scan_turn (args : netDevArgs.t) (line : string)
    (items : gmap string tsNetDev) : option (gmap string tsNetDev) :=
  if negb (strings.Contains line ":") then Some items
  else
    let fields := strings.Fields line in
    f0 ← fields !! 0%nat;
    let ifname := strings.Trim f0 ":" in
    if filtered_out args ifname then Some items
    else
      '(iface, _) ← iface_of fields ifname (mfunc.NewCounter 1);
      Some (<[ifname := iface]> items).

Fixpoint scan_loop (args : netDevArgs.t) (lines : list string)
    (items : gmap string tsNetDev) : option (gmap string tsNetDev) :=
  match lines with
  | [] => Some items
  | line :: rest =>
      match scan_turn args line items with
      | Some items' => scan_loop args rest items'
      | None => None
      end
  end.

(** The interface name of a line: [strings.Trim(fields[0], ":")]. *)
Definition ifname_of (line : string) : option string :=
  f0 ← strings.Fields line !! 0%nat; Some (strings.Trim f0 ":").

(** The name passes the filter: there is no list, or the list holds
    it. *)
Definition allowed (args : netDevArgs.t) (name : string) : Prop :=
  match netDevArgs.Interfaces args with
  | None => True
  | Some l => name ∈ l
  end.

(** The name under which [line] is entered in the map, if the loop
    enters it: the line holds a colon and its name passes the filter. *)
Definition kept_name (args : netDevArgs.t) (line : string) : option string :=
  if strings.Contains line ":" then
    ifname ← ifname_of line;
    if filtered_out args ifname then None else Some ifname
  else None.

Definition readNetDev (args : netDevArgs.t) (fs : filesystem)
    : result (gmap string tsNetDev) :=
  match fs (netDevArgs.Path args) with
  | NoFile e => Err e
  | File data rderr =>
      let '(lines, err) := Scanner data rderr in
      match scan_loop args lines ∅ with
      | None => Panic
      | Some items =>
          match err with
          | Some e => Err e
          | None => Ok items
          end
      end
  end.

End Reader.

(** ** The sampler loop: [calculate] *)

(** What the loop does to the outside: a report to the log, a call of
    the callback. *)
Inductive effect : Type :=
| LogError (e : error)
| Callback (data : TsCallData.t).

(** The variables [lastRx], [lastTx] and [firstIteration] of
    [calculate]. *)
Record loop_state : Type := {
  lastRx : Z;
  lastTx : Z;
  firstIteration : bool
}.

Definition initial : loop_state :=
  {| lastRx := 0; lastTx := 0; firstIteration := true |}.

Inductive tick_result : Type :=
| Next (st : loop_state) (effs : list effect)
| Panicked.

(** [for _, v := range stats { totalRx += v.Receive.Bytes; totalTx +=
    v.Transmit.Bytes }].  Go visits the entries in no fixed order; the
    wrapped sums do not depend on it (see [totals_sum]). *)
Definition totals (stats : gmap string tsNetDev) : Z * Z :=
  map_fold (fun _ v t => (Int64.add (fst t) (Bytes (Receive v)),
                          Int64.add (snd t) (Bytes (Transmit v))))
           (0, 0) stats.

(** The plain sum of a column of counters over the entries of a map. *)
Definition column_sum (column : tsNetDev -> Z) (stats : gmap string tsNetDev) : Z :=
  foldr (fun kv acc => column (snd kv) + acc) 0 (map_to_list stats).

(** [if BytesRx < 0 { BytesRx = 0 }] *)
Definition clamp (rate : Z) : Z := if rate <? 0 then 0 else rate.

(** The rate as the specification words it: the difference of the totals
    over the whole seconds of the interval, and not below zero. *)
Definition spec_rate (total last d : Z) : Z :=
  Z.max 0 (Z.quot (total - last) (Z.quot d time.Second)).

(** [lastRx = totalRx; lastTx = totalTx], with [firstIteration] false
    from the first successful read on. *)
Definition stored (stats : gmap string tsNetDev) : loop_state :=
  {| lastRx := fst (totals stats); lastTx := snd (totals stats);
     firstIteration := false |}.

Section Sampler.

Variable toInt64 : string -> Z.

(** The body of [case <-ticker.C:] for the source as [fs] shows it. *)
Definition tick (args : netDevArgs.t) (st : loop_state) (fs : filesystem)
    : tick_result :=
  match readNetDev toInt64 args fs with
  | Panic => Panicked
  | Err e => Next st [LogError e]
  | Ok stats =>
      let '(totalRx, totalTx) := totals stats in
      let st' := {| lastRx := totalRx; lastTx := totalTx; firstIteration := false |} in
      if negb (firstIteration st) then
        let secs := time.SecondsInt64 (netDevArgs.Interval args) in
        match Int64.quo (Int64.sub totalRx (lastRx st)) secs,
              Int64.quo (Int64.sub totalTx (lastTx st)) secs with
        | Some BytesRx, Some BytesTx =>
            Next st'
                 [Callback {| TsCallData.Name := netDevArgs.Name args;
                              TsCallData.BytesTx := clamp BytesTx;
                              TsCallData.BytesRx := clamp BytesRx;
                              TsCallData.Interval := netDevArgs.Interval args;
                              TsCallData.Interfaces := netDevArgs.Interfaces args |}]
        | _, _ => Panicked
        end
      else Next st' []
  end.

(** How a run of ticks ends: the loop waits for the next one, or a
    panic has unwound it. *)
Inductive loop_end : Type :=
| Waiting (st : loop_state)
| Crashed.

(** The ticks of one call of [calculate], one source state per tick:
    what each tick did, and how the run stands after the last. *)
Fixpoint ticks (args : netDevArgs.t) (st : loop_state) (sources : list filesystem)
    : list (list effect) * loop_end :=
  match sources with
  | [] => ([], Waiting st)
  | fs :: rest =>
      match tick args st fs with
      | Next st' effs =>
          let '(trace, fin) := ticks args st' rest in (effs :: trace, fin)
      | Panicked => ([], Crashed)
      end
  end.

(** [calculate] up to the ticks it is given: [time.NewTicker] panics on
    an interval that is not positive. *)
Definition calculate (args : netDevArgs.t) (sources : list filesystem)
    : list (list effect) * loop_end :=
  if netDevArgs.Interval args <=? 0 then ([], Crashed)
  else ticks args initial sources.

(** *** The goroutine of [start], step by step *)

(** Where the goroutine stands: at the [select] of [start], at the
    [select] of [calculate], returned, or ended by a panic that
    [recover] logged. *)
Inductive goroutine : Type :=
| Outer
| Inner (st : loop_state)
| Exited
| Recovered.

(** The two channels: whether [done] is closed, and whether a tick
    waits in [ticker.C] (a channel that holds one tick). *)
Record channels : Type := {
  done : bool;
  tick_ready : bool
}.

Definition panic_report : effect := LogError "netDev goroutine panic".

Definition config : Type := (goroutine * channels)%type.

(** The moves of the goroutine.  A [select] whose cases are both ready
    takes either; the [select] of [start] takes [default] only when
    [done] is not ready. *)
Inductive step (args : netDevArgs.t) : config -> list effect -> config -> Prop :=
| step_start_done ch :
    done ch = true ->
    step args (Outer, ch) [] (Exited, ch)
| step_start_default ch :
    done ch = false -> 0 < netDevArgs.Interval args ->
    step args (Outer, ch) [] (Inner initial, {| done := done ch; tick_ready := false |})
| step_start_panic ch :
    done ch = false -> netDevArgs.Interval args <= 0 ->
    step args (Outer, ch) [panic_report] (Recovered, ch)
| step_done st ch :
    done ch = true ->
    step args (Inner st, ch) [] (Outer, ch)
| step_tick st ch fs st' effs :
    tick_ready ch = true -> tick args st fs = Next st' effs ->
    step args (Inner st, ch) effs (Inner st', {| done := done ch; tick_ready := false |})
| step_tick_panic st ch fs :
    tick_ready ch = true -> tick args st fs = Panicked ->
    step args (Inner st, ch) [panic_report] (Recovered, ch).

(** The moves of the others: [Close] closes [done] (a second [Close]
    panics in its caller), and the ticker of a running [calculate] puts
    a tick in its channel. *)
Inductive outside : config -> config -> Prop :=
| outside_Close g ch :
    done ch = false ->
    outside (g, ch) (g, {| done := true; tick_ready := tick_ready ch |})
| outside_fire st ch :
    outside (Inner st, ch) (Inner st, {| done := done ch; tick_ready := true |}).

(** The executions: moves of the goroutine and of the others in any
    order, with what the goroutine did on the way. *)
Inductive run (args : netDevArgs.t) : config -> list effect -> config -> Prop :=
| run_here c : run args c [] c
| run_step c effs c' effs' c'' :
    step args c effs c' -> run args c' effs' c'' -> run args c (effs ++ effs') c''
| run_outside c c' effs c'' :
    outside c c' -> run args c' effs c'' -> run args c effs c''.

End Sampler.

(** ** Sources and configurations used in the examples *)

Module Examples.

Local Open Scope string_scope.

Definition nl : string := String bufio.newline EmptyString.

Definition source (data : string) : filesystem := fun _ => File data None.

Definition args_every (interval : Z) : netDevArgs.t :=
  {| netDevArgs.Name := "all";
     netDevArgs.Interval := interval;
     netDevArgs.Interfaces := None;
     netDevArgs.Path := "/proc/net/dev" |}.

Definition args_listing (interfaces : slice string) : netDevArgs.t :=
  {| netDevArgs.Name := "all";
     netDevArgs.Interval := time.Second;
     netDevArgs.Interfaces := interfaces;
     netDevArgs.Path := "/proc/net/dev" |}.

Definition header : string :=
  "Inter-|   Receive                                                |  Transmit" ++ nl ++
  " face |bytes    packets errs drop fifo frame compressed multicast|bytes    packets errs drop fifo colls carrier compressed" ++ nl.

(** One interface with the given receive and transmit byte counts. *)
Definition eth0_line (rx tx : string) : string :=
  "  eth0: " ++ rx ++ " 2 0 0 0 0 0 0 " ++ tx ++ " 3 0 0 0 0 0 0" ++ nl.

Definition eth1_line (rx tx : string) : string :=
  "  eth1: " ++ rx ++ " 0 0 0 0 0 0 0 " ++ tx ++ " 0 0 0 0 0 0 0" ++ nl.

(** What the reader makes of [eth0_line] and of [eth1_line]. *)
Definition eth0_sample (rx tx : Z) : tsNetDev :=
  {| Name := "eth0";
     Receive := {| Bytes := rx; Packets := 2; Errs := 0; Drop := 0; FIFO := 0;
                   Frame := 0; Compressed := 0; Multicast := 0; Colls := 0; Carrier := 0 |};
     Transmit := {| Bytes := tx; Packets := 3; Errs := 0; Drop := 0; FIFO := 0;
                    Frame := 0; Compressed := 0; Multicast := 0; Colls := 0; Carrier := 0 |} |}.

Definition eth1_sample (rx tx : Z) : tsNetDev :=
  {| Name := "eth1";
     Receive := {| Bytes := rx; Packets := 0; Errs := 0; Drop := 0; FIFO := 0;
                   Frame := 0; Compressed := 0; Multicast := 0; Colls := 0; Carrier := 0 |};
     Transmit := {| Bytes := tx; Packets := 0; Errs := 0; Drop := 0; FIFO := 0;
                    Frame := 0; Compressed := 0; Multicast := 0; Colls := 0; Carrier := 0 |} |}.

Definition spec_line : string := "eth0: 100 2 0 0 0 0 0 0 200 3 0 0 0 0 0 0".

Definition short_line : string := "eth0: 1 2".

Definition max_text : string := "9223372036854775807".

Definition running (rx tx : Z) : loop_state :=
  {| lastRx := rx; lastTx := tx; firstIteration := false |}.

End Examples.

(** ** The constructor, its options and [Close] *)

(** What [NewNetDev] builds, without the channel: the arguments and the
    callback, which [netDevArgs] of the source holds as well.  [C] is the
    type of the callbacks. *)
Module netDev.
Record t (C : Type) : Type := {
  args : netDevArgs.t;
  Callback : C
}.
Arguments args {C} _.
Arguments Callback {C} _.
End netDev.

Section Constructor.

Variable C : Type.

(** The callback [NewNetDev] installs, which logs the result. *)
Variable logResult : C.

(** [netDevOpts]: a function that changes the [netDev] it is given. *)
Definition netDevOpts : Type := netDev.t C -> netDev.t C.

(** [WithPath]: [t.args.Path = path]. *)
Definition WithPath (path : string) : netDevOpts :=
  fun t =>
    {| netDev.args :=
         {| netDevArgs.Name := netDevArgs.Name (netDev.args t);
            netDevArgs.Interval := netDevArgs.Interval (netDev.args t);
            netDevArgs.Interfaces := netDevArgs.Interfaces (netDev.args t);
            netDevArgs.Path := path |};
       netDev.Callback := netDev.Callback t |}.

(** [WithCallback]: [t.args.Callback = callback]. *)
Definition WithCallback (callback : C) : netDevOpts :=
  fun t => {| netDev.args := netDev.args t; netDev.Callback := callback |}.

(** The value [NewNetDev] starts from. *)
Definition defaults (name : string) (interval : Z) : netDev.t C :=
  {| netDev.args :=
       {| netDevArgs.Name := name;
          netDevArgs.Interval := interval;
          netDevArgs.Interfaces := None;
          netDevArgs.Path := "/proc/net/dev" |};
     netDev.Callback := logResult |}.

(** [NewNetDev]: [for _, opt := range opts { opt(t) }], then
    [t.start()] (see [started]) and [return t, nil]. *)
Definition NewNetDev (name : string) (interval : Z) (opts : list netDevOpts)
    : netDev.t C :=
  fold_left (fun t opt => opt t) opts (defaults name interval).

(** The options the package exports: those that [WithPath] and
    [WithCallback] return. *)
Definition exported (opt : netDevOpts) : Prop :=
  (exists path, opt = WithPath path) \/ (exists callback, opt = WithCallback callback).

End Constructor.

(** The goroutine as [start] launches it: at its [select], [done] open
    and no ticker yet. *)
Definition started : config := (Outer, {| done := false; tick_ready := false |}).

(** [Close]: [close(t.done)], which panics ([None]) on a channel that is
    closed already. *)
Definition Close (ch : channels) : option channels :=
  if done ch then None else Some {| done := true; tick_ready := tick_ready ch |}.

(** ** What a line alone gives *)

(** The entry the loop makes of [line] under [name]; [None] when the line
    is too short. *)
Definition iface_at (toInt64 : string -> Z) (line name : string) : option tsNetDev :=
  fst <$> iface_of toInt64 (strings.Fields line) name (mfunc.NewCounter 1).

(** The columns the reader never fills are left at zero, and the entry
    bears the name it is given. *)
Definition well_formed_entry (name : string) (v : tsNetDev) : Prop :=
  Name v = name /\
  Colls (Receive v) = 0 /\ Carrier (Receive v) = 0 /\
  Frame (Transmit v) = 0 /\ Multicast (Transmit v) = 0.

(** [args] with the list of interfaces replaced. *)
Definition with_interfaces (args : netDevArgs.t) (interfaces : slice string)
    : netDevArgs.t :=
  {| netDevArgs.Name := netDevArgs.Name args;
     netDevArgs.Interval := netDevArgs.Interval args;
     netDevArgs.Interfaces := interfaces;
     netDevArgs.Path := netDevArgs.Path args |}.

(** ** More sources for the examples *)

Module Fixtures.

Local Open Scope string_scope.

(** A line of 65536 bytes without a newline. *)
Definition long_line : string :=
  String.string_of_list_ascii (repeat "a"%char (Z.to_nat 65536)).

Definition unreadable : filesystem :=
  fun _ => NoFile "open /proc/net/dev: permission denied".

(** [eth0] twice, then [eth1]. *)
Definition twice : string :=
  Examples.header ++ Examples.eth0_line "1" "2" ++ Examples.eth0_line "3000" "700"
                  ++ Examples.eth1_line "10" "20".

(** The spec's line with two more fields. *)
Definition spec_line_more : string := Examples.spec_line ++ " 7 8".

End Fixtures.

(** ** Rounding lemmas *)

Section Rounding.

Import Float64.

Lemma rne_floor (a c : Z) : 0 < c -> a / c <= rne a c <= a / c + 1.
Proof.
  intros Hc. unfold rne.
  repeat match goal with |- context [if ?b then _ else _] => destruct b end; lia.
Qed.

Lemma rne_err (a c : Z) :
  0 < c -> 2 * a - c <= 2 * (rne a c * c) <= 2 * a + c.
Proof.
  intros Hc. unfold rne.
  pose proof (Z.div_mod a c ltac:(lia)) as Hdm.
  pose proof (Z.mod_pos_bound a c Hc) as Hr.
  destruct (Z.ltb_spec (2 * (a mod c)) c);
    [|destruct (Z.ltb_spec c (2 * (a mod c))); [|destruct (Z.even (a / c))]]; nia.
Qed.

Lemma rne_exact (q c : Z) : 0 < c -> rne (q * c) c * c = q * c.
Proof.
  intros Hc. unfold rne.
  rewrite Z.mod_mul, Z.div_mul by lia.
  destruct (Z.ltb_spec (2 * 0) c); [reflexivity | lia].
Qed.

Lemma ulp_pos (v : Z) : 0 < ulp v.
Proof. unfold ulp. apply Z.pow_pos_nonneg; lia. Qed.

(** Below 2^(k+53) the spacing is a power of two dividing 2^k. *)
Lemma ulp_divides (v k : Z) :
  0 <= k -> v < 2 ^ (k + 53) -> exists j, 0 < j /\ 2 ^ k = j * ulp v.
Proof.
  intros Hk Hv. unfold ulp.
  assert (He : Z.max 0 (Z.log2 v - 52) <= k).
  { destruct (Z.le_gt_cases v 0) as [Hle | Hgt].
    - rewrite (Z.log2_nonpos v Hle). lia.
    - apply Z.log2_lt_pow2 in Hv; lia. }
  exists (2 ^ (k - Z.max 0 (Z.log2 v - 52))). split.
  - apply Z.pow_pos_nonneg; lia.
  - rewrite <- Z.pow_add_r by lia. f_equal. lia.
Qed.

Lemma ulp_le (v k : Z) : 0 <= k -> v < 2 ^ (k + 53) -> ulp v <= 2 ^ k.
Proof.
  intros Hk Hv. destruct (ulp_divides v k Hk Hv) as (j & Hj & ->).
  pose proof (ulp_pos v). nia.
Qed.

(** A multiple of 2^k below 2^(k+53) is a float: rounding keeps it. *)
Lemma round_exact (n k : Z) :
  0 <= k -> n * 2 ^ k < 2 ^ (k + 53) -> round (n * 2 ^ k) 1 = n * 2 ^ k.
Proof.
  intros Hk Hn. unfold round. rewrite Z.div_1_r, Z.mul_1_l.
  destruct (ulp_divides _ k Hk Hn) as (j & Hj & Hjk).
  pose proof (ulp_pos (n * 2 ^ k)) as Hu.
  set (u := ulp (n * 2 ^ k)) in *. clearbody u.
  rewrite Hjk, Z.mul_assoc. apply rne_exact, Hu.
Qed.

Lemma of_int_exact (n : Z) : 0 <= n < 2 ^ 53 -> of_int n = n * one.
Proof.
  intros Hn. unfold of_int, one, unit_exp. apply round_exact; [lia|].
  rewrite (Z.pow_add_r 2 1074 53) by lia.
  assert (0 < 2 ^ 1074) by (apply Z.pow_pos_nonneg; lia). nia.
Qed.

(** Rounding a sum never crosses a float: between two multiples of 2^k
    the result stays between them. *)
Lemma round_between (lo hi x k : Z) :
  0 <= k -> 0 <= lo -> hi * 2 ^ k <= 2 ^ (k + 53) ->
  lo * 2 ^ k <= x <= hi * 2 ^ k ->
  lo * 2 ^ k <= round x 1 <= hi * 2 ^ k.
Proof.
  intros Hk Hlo Hhi Hx.
  assert (Hp : 0 < 2 ^ k) by (apply Z.pow_pos_nonneg; lia).
  destruct (Z.eq_dec x (hi * 2 ^ k)) as [-> | Hne].
  { destruct (Z.eq_dec (hi * 2 ^ k) (2 ^ (k + 53))) as [Heq | Hlt].
    - assert (hi = 2 ^ 53) as ->.
      { rewrite Z.pow_add_r in Heq by lia. nia. }
      replace (2 ^ 53 * 2 ^ k) with (2 ^ 52 * 2 ^ (k + 1)).
      2:{ rewrite Z.pow_add_r by lia. change (2 ^ 53) with (2 ^ 52 * 2). change (2 ^ 1) with 2. lia. }
      rewrite round_exact.
      + split; [|lia]. rewrite Z.pow_add_r in * by lia. change (2 ^ 1) with 2.
        change (2 ^ 53) with (2 ^ 52 * 2) in Hx. nia.
      + lia.
      + rewrite !Z.pow_add_r by lia. change (2 ^ 1) with 2. change (2 ^ 53) with (2 ^ 52 * 2).
        nia.
    - rewrite round_exact; lia. }
  assert (Hxlt : x < 2 ^ (k + 53)) by lia.
  unfold round. rewrite Z.div_1_r, Z.mul_1_l.
  destruct (ulp_divides x k Hk Hxlt) as (j & Hj & Hjk).
  pose proof (ulp_pos x) as Hu. set (u := ulp x) in *. clearbody u.
  pose proof (rne_floor x u Hu) as [Hfl Hce].
  rewrite Hjk in *.
  assert (Hq1 : lo * j <= x / u).
  { apply Z.div_le_lower_bound; [lia | nia]. }
  assert (Hq2 : x / u < hi * j).
  { apply Z.div_lt_upper_bound; [lia | nia]. }
  nia.
Qed.

End Rounding.

(** ** [int64(d.Seconds())] against the whole seconds of [d] *)

Section SecondsFacts.

Import Float64 time.

Lemma round_err (a b : Z) :
  0 < b ->
  2 * a - b * ulp (a / b) <= 2 * (round a b * b) <= 2 * a + b * ulp (a / b).
Proof.
  intros Hb. unfold round. pose proof (ulp_pos (a / b)) as Hu.
  set (u := ulp (a / b)) in *. clearbody u.
  pose proof (rne_err a (b * u) ltac:(nia)). nia.
Qed.

Lemma one_split : one = 2 ^ 54 * 2 ^ 1020 /\ 2 ^ 1045 = 2 ^ 25 * 2 ^ 1020 /\ 0 < 2 ^ 1020.
Proof.
  unfold one, unit_exp. rewrite <- !Z.pow_add_r by lia.
  repeat split.
Qed.

(** The float of the sub-second part: within half a spacing of
    [nsec / 1e9], hence below 1.0. *)
Lemma fraction_bounds (nsec : Z) :
  0 <= nsec < Second ->
  let f := div (of_int nsec) (of_int 1000000000) in
  0 <= f /\ f * Second <= nsec * one + Second * 2 ^ 1020.
Proof.
  intros Hn f. subst f. unfold Second in *.
  rewrite !of_int_exact by lia. unfold div.
  destruct one_split as (Hone & _ & Ht).
  assert (H1 : 0 < one) by lia.
  set (a := nsec * one * one). set (b := 1000000000 * one).
  assert (Hab : a / b = nsec * one / 1000000000).
  { subst a b. rewrite Z.div_mul_cancel_r by lia. reflexivity. }
  assert (Hlt : a / b < 2 ^ (1021 + 53)).
  { rewrite Hab. change (2 ^ (1021 + 53)) with one.
    apply Z.div_lt_upper_bound; nia. }
  pose proof (ulp_le _ 1021 ltac:(lia) Hlt) as Hu.
  pose proof (ulp_pos (a / b)) as Hu0.
  pose proof (round_err a b ltac:(subst b; lia)) as [_ Herr].
  assert (H1021 : 2 ^ 1021 = 2 * 2 ^ 1020).
  { rewrite <- (Z.pow_succ_r 2 1020) by lia. reflexivity. }
  split.
  - unfold round.
    pose proof (rne_floor a (b * ulp (a / b)) ltac:(subst b; nia)) as [Hfl _].
    assert (0 <= a / (b * ulp (a / b))).
    { apply Z.div_pos; subst a b; nia. }
    nia.
  - set (r := round a b) in *. clearbody r.
    set (u := ulp (a / b)) in *. clearbody u. subst a b.
    rewrite H1021 in Hu. clear Hab Hlt H1021.
    set (t := 2 ^ 1020) in *. clearbody t.
    assert (2 * r * 1000000000 <= 2 * nsec * one + 1000000000 * u) by nia.
    nia.
Qed.

(** [d.Seconds()] lies between the floats of the two whole seconds
    around [d]. *)
Lemma Seconds_between (d : Z) :
  0 <= d < 2 ^ 63 ->
  (d / Second) * one <= Seconds d <= (d / Second + 1) * one.
Proof.
  intros Hd. unfold Seconds.
  rewrite Z.quot_div_nonneg, Z.rem_mod_nonneg by (unfold Second; lia).
  assert (Hs : 0 <= d / Second < 2 ^ 34).
  { split; [apply Z.div_pos; unfold Second; lia|].
    apply Z.div_lt_upper_bound; unfold Second; lia. }
  pose proof (Z.mod_pos_bound d Second ltac:(unfold Second; lia)) as Hn.
  destruct (fraction_bounds _ Hn) as [Hf0 Hf1].
  set (f := div _ _) in *. clearbody f.
  rewrite of_int_exact by lia. unfold add.
  destruct one_split as (Hone & _ & Ht).
  apply (round_between (d / Second) (d / Second + 1) _ 1074); try lia.
  fold unit_exp. fold one. unfold Second in *.
  set (t := 2 ^ 1020) in *. clearbody t. nia.
Qed.

(** Below 2^24 seconds the sum rounds down to less than the next whole
    second. *)
Lemma Seconds_below_next (d : Z) :
  0 <= d < 2 ^ 24 * Second -> Seconds d < (d / Second + 1) * one.
Proof.
  intros Hd. unfold Seconds.
  rewrite Z.quot_div_nonneg, Z.rem_mod_nonneg by (unfold Second in *; lia).
  assert (Hs : 0 <= d / Second < 2 ^ 24).
  { split; [apply Z.div_pos; unfold Second; lia|].
    apply Z.div_lt_upper_bound; unfold Second in *; lia. }
  pose proof (Z.mod_pos_bound d Second ltac:(unfold Second; lia)) as Hn.
  destruct (fraction_bounds _ Hn) as [Hf0 Hf1].
  set (f := div _ _) in *. clearbody f.
  rewrite of_int_exact by lia. unfold add.
  destruct one_split as (Hone & H1045 & Ht).
  set (x := d / Second * one + f).
  assert (Hx : x < 2 ^ (1045 + 53)).
  { change (2 ^ (1045 + 53)) with (2 ^ (24 + 1074)).
    rewrite (Z.pow_add_r 2 24 1074) by lia. fold unit_exp. fold one.
    subst x. unfold Second in *. set (t := 2 ^ 1020) in *. clearbody t. nia. }
  pose proof (ulp_le _ 1045 ltac:(lia) Hx) as Hu.
  pose proof (round_err x 1 ltac:(lia)) as [_ Herr].
  rewrite Z.div_1_r in Herr.
  set (r := round x 1) in *. clearbody r.
  set (u := ulp x) in *. clearbody u. subst x.
  unfold Second in *. rewrite H1045 in Hu.
  set (t := 2 ^ 1020) in *. clearbody t.
  set (s := d / 1000000000) in *. clearbody s.
  set (n := d mod 1000000000) in *. clearbody n.
  nia.
Qed.

Lemma SecondsInt64_range (d : Z) :
  0 < d < 2 ^ 63 ->
  d / Second <= SecondsInt64 d <= d / Second + 1.
Proof.
  intros Hd. unfold SecondsInt64, to_int.
  rewrite Z.sgn_pos, Z.abs_eq, Z.mul_1_l by lia.
  pose proof (Seconds_between d ltac:(lia)) as [Hlo Hhi].
  destruct one_split as (Hone & _ & Ht).
  assert (H1 : 0 < one) by lia.
  split.
  - apply Z.div_le_lower_bound; lia.
  - apply Z.div_le_upper_bound; lia.
Qed.

Lemma SecondsInt64_whole (d : Z) :
  0 < d < 2 ^ 24 * Second -> SecondsInt64 d = d / Second.
Proof.
  intros Hd. unfold SecondsInt64, to_int.
  rewrite Z.sgn_pos, Z.abs_eq, Z.mul_1_l by lia.
  pose proof (Seconds_between d ltac:(unfold Second in *; lia)) as [Hlo _].
  pose proof (Seconds_below_next d ltac:(lia)) as Hhi.
  destruct one_split as (Hone & _ & Ht).
  assert (H1 : 0 < one) by lia.
  symmetry. apply Z.div_unique with (r := Seconds d - d / Second * one); lia.
Qed.

Lemma SecondsInt64_zero_iff (d : Z) :
  0 < d < 2 ^ 63 -> (SecondsInt64 d = 0 <-> d < Second).
Proof.
  intros Hd. split.
  - intros H0. pose proof (SecondsInt64_range d Hd) as [Hlo _].
    rewrite H0 in Hlo.
    destruct (Z.lt_ge_cases d Second) as [|Hge]; [assumption|].
    assert (1 <= d / Second).
    { apply Z.div_le_lower_bound; unfold Second in *; lia. }
    lia.
  - intros Hlt. rewrite SecondsInt64_whole by (unfold Second in *; lia).
    apply Z.div_small. lia.
Qed.

End SecondsFacts.

(** ** int64 arithmetic *)

Section Int64Facts.

Import Int64.

Lemma wrap_in_range (z : Z) : in_range z -> wrap z = z.
Proof.
  unfold in_range, min_int, max_int, wrap. intros Hz.
  rewrite Z.mod_small; lia.
Qed.

Lemma wrap_range (z : Z) : in_range (wrap z).
Proof.
  unfold in_range, min_int, max_int, wrap.
  pose proof (Z.mod_pos_bound (z + 2 ^ 63) (2 ^ 64) ltac:(lia)). lia.
Qed.

(** Truncated division by a positive number moves toward zero. *)
Lemma quot_toward_zero (x s : Z) :
  0 < s -> (0 <= x -> 0 <= Z.quot x s <= x) /\ (x <= 0 -> x <= Z.quot x s <= 0).
Proof.
  intros Hs. split; intros Hx.
  - rewrite Z.quot_div_nonneg by lia. split; [apply Z.div_pos; lia|].
    apply Z.div_le_upper_bound; nia.
  - replace x with (- - x) by lia. rewrite Z.quot_opp_l by lia.
    rewrite Z.quot_div_nonneg by lia.
    assert (0 <= - x / s <= - x); [|lia].
    split; [apply Z.div_pos; lia|]. apply Z.div_le_upper_bound; nia.
Qed.

Lemma quo_positive (x s : Z) :
  in_range x -> 0 < s -> quo x s = Some (Z.quot x s).
Proof.
  intros Hx Hs. unfold quo.
  destruct (Z.eqb_spec s 0); [lia|]. f_equal. apply wrap_in_range.
  pose proof (quot_toward_zero x s Hs) as [Hp Hn].
  unfold in_range, min_int, max_int in *. lia.
Qed.

Lemma clamp_max (r : Z) : clamp r = Z.max 0 r.
Proof. unfold clamp. destruct (Z.ltb_spec r 0); lia. Qed.

Lemma clamp_nonneg (r : Z) : 0 <= clamp r.
Proof. rewrite clamp_max. lia. Qed.

End Int64Facts.

Section SecondsSign.

Import Float64 time.

Lemma round_nonneg (a b : Z) : 0 <= a -> 0 < b -> 0 <= round a b.
Proof.
  intros Ha Hb. unfold round. pose proof (ulp_pos (a / b)) as Hu.
  set (u := ulp (a / b)) in *. clearbody u.
  pose proof (rne_floor a (b * u) ltac:(nia)) as [Hfl _].
  assert (0 <= a / (b * u)) by (apply Z.div_pos; nia). nia.
Qed.

Lemma one_pos : 0 < one.
Proof. destruct one_split as (-> & _ & ?). lia. Qed.

Lemma Seconds_nonneg (d : Z) : 0 <= d -> 0 <= Seconds d.
Proof.
  intros Hd. unfold Seconds, add, div. pose proof one_pos.
  rewrite Z.quot_div_nonneg, Z.rem_mod_nonneg by (unfold Second; lia).
  pose proof (Z.mod_pos_bound d Second ltac:(unfold Second; lia)).
  assert (0 <= d / Second) by (apply Z.div_pos; unfold Second; lia).
  rewrite (of_int_exact 1000000000) by lia.
  apply round_nonneg; [|lia].
  assert (0 <= of_int (d / Second)) by (apply round_nonneg; nia).
  assert (0 <= of_int (d mod Second)) by (apply round_nonneg; nia).
  assert (0 <= round (of_int (d mod Second) * one) (1000000000 * one))
    by (apply round_nonneg; nia).
  lia.
Qed.

Lemma SecondsInt64_nonneg (d : Z) : 0 <= d -> 0 <= SecondsInt64 d.
Proof.
  intros Hd. unfold SecondsInt64, to_int.
  pose proof (Seconds_nonneg (Z.abs d) ltac:(lia)). pose proof one_pos.
  assert (0 <= Seconds (Z.abs d) / one) by (apply Z.div_pos; lia).
  assert (0 <= Z.sgn d) by lia. nia.
Qed.

End SecondsSign.

(** ** One tick *)

Section TickFacts.

Variable toInt64 : string -> Z.
Variable args : netDevArgs.t.

Lemma tick_Err (st : loop_state) (fs : filesystem) (e : error) :
  readNetDev toInt64 args fs = Err e ->
  tick toInt64 args st fs = Next st [LogError e].
Proof. intros H. unfold tick. rewrite H. reflexivity. Qed.

Lemma tick_Panic (st : loop_state) (fs : filesystem) :
  readNetDev toInt64 args fs = Panic ->
  tick toInt64 args st fs = Panicked.
Proof. intros H. unfold tick. rewrite H. reflexivity. Qed.

Lemma tick_first (st : loop_state) (fs : filesystem) (stats : gmap string tsNetDev) :
  readNetDev toInt64 args fs = Ok stats ->
  firstIteration st = true ->
  tick toInt64 args st fs = Next (stored stats) [].
Proof.
  intros H Hf. unfold tick, stored. rewrite H, Hf.
  destruct (totals stats). reflexivity.
Qed.

Lemma tick_later (st : loop_state) (fs : filesystem) (stats : gmap string tsNetDev) :
  readNetDev toInt64 args fs = Ok stats ->
  firstIteration st = false ->
  tick toInt64 args st fs =
    let secs := time.SecondsInt64 (netDevArgs.Interval args) in
    match Int64.quo (Int64.sub (fst (totals stats)) (lastRx st)) secs,
          Int64.quo (Int64.sub (snd (totals stats)) (lastTx st)) secs with
    | Some BytesRx, Some BytesTx =>
        Next (stored stats)
             [Callback {| TsCallData.Name := netDevArgs.Name args;
                          TsCallData.BytesTx := clamp BytesTx;
                          TsCallData.BytesRx := clamp BytesRx;
                          TsCallData.Interval := netDevArgs.Interval args;
                          TsCallData.Interfaces := netDevArgs.Interfaces args |}]
    | _, _ => Panicked
    end.
Proof.
  intros H Hf. unfold tick, stored. rewrite H, Hf.
  destruct (totals stats). reflexivity.
Qed.

(** A tick that calls the callback read the source, was not the first
    to do so, and divided by a number of seconds that is not zero. *)
Lemma tick_Callback (st st' : loop_state) (fs : filesystem)
    (effs : list effect) (data : TsCallData.t) :
  tick toInt64 args st fs = Next st' effs ->
  Callback data ∈ effs ->
  exists stats,
    readNetDev toInt64 args fs = Ok stats /\
    firstIteration st = false /\
    st' = stored stats /\
    effs = [Callback data] /\
    time.SecondsInt64 (netDevArgs.Interval args) <> 0 /\
    Int64.quo (Int64.sub (fst (totals stats)) (lastRx st))
              (time.SecondsInt64 (netDevArgs.Interval args))
      = Some (Int64.wrap (Z.quot (Int64.sub (fst (totals stats)) (lastRx st))
                                 (time.SecondsInt64 (netDevArgs.Interval args)))) /\
    TsCallData.BytesRx data =
      clamp (Int64.wrap (Z.quot (Int64.sub (fst (totals stats)) (lastRx st))
                                (time.SecondsInt64 (netDevArgs.Interval args)))) /\
    TsCallData.BytesTx data =
      clamp (Int64.wrap (Z.quot (Int64.sub (snd (totals stats)) (lastTx st))
                                (time.SecondsInt64 (netDevArgs.Interval args)))).
Proof.
  intros Ht Hin.
  destruct (readNetDev toInt64 args fs) as [stats | e |] eqn:Hr.
  - destruct (firstIteration st) eqn:Hf.
    + rewrite (tick_first _ _ _ Hr Hf) in Ht. injection Ht as <- <-.
      apply elem_of_nil in Hin. contradiction.
    + rewrite (tick_later _ _ _ Hr Hf) in Ht. cbv zeta in Ht.
      unfold Int64.quo in *.
      destruct (Z.eqb_spec (time.SecondsInt64 (netDevArgs.Interval args)) 0) as [|Hne];
        [discriminate|].
      injection Ht as <- <-. apply list_elem_of_singleton in Hin.
      injection Hin as ->. exists stats. repeat split; auto.
  - rewrite (tick_Err _ _ _ Hr) in Ht. injection Ht as <- <-.
    apply list_elem_of_singleton in Hin. discriminate.
  - rewrite (tick_Panic _ _ Hr) in Ht. discriminate.
Qed.

End TickFacts.

(** ** The totals of a snapshot *)

Section Totals.

Lemma wrap_add_l (a b : Z) : Int64.wrap (Int64.wrap a + b) = Int64.wrap (a + b).
Proof.
  unfold Int64.wrap.
  replace ((a + 2 ^ 63) mod 2 ^ 64 - 2 ^ 63 + b + 2 ^ 63)
    with ((a + 2 ^ 63) mod 2 ^ 64 + b) by lia.
  rewrite Z.add_mod_idemp_l by lia. do 2 f_equal. lia.
Qed.

(** Each total is the plain sum of its column, wrapped once: the order
    in which the entries are visited does not matter. *)
Lemma totals_sum (stats : gmap string tsNetDev) :
  totals stats =
    (Int64.wrap (column_sum (fun v => Bytes (Receive v)) stats),
     Int64.wrap (column_sum (fun v => Bytes (Transmit v)) stats)).
Proof.
  unfold totals, column_sum. rewrite map_fold_foldr.
  induction (map_to_list stats) as [|[k v] l IH].
  - reflexivity.
  - cbn [foldr uncurry fst snd]. rewrite IH. cbn [fst snd]. unfold Int64.add.
    rewrite !wrap_add_l. f_equal; f_equal; lia.
Qed.

Lemma totals_in_range (stats : gmap string tsNetDev) :
  Int64.in_range (fst (totals stats)) /\ Int64.in_range (snd (totals stats)).
Proof. rewrite totals_sum. split; apply wrap_range. Qed.

End Totals.

(** ** The rate of a tick *)

Section Rates.

Variable toInt64 : string -> Z.

Lemma delta_quotient (total last secs : Z) :
  0 < secs ->
  Int64.quo (Int64.sub total last) secs = Some (Z.quot (Int64.sub total last) secs).
Proof. intros Hs. apply quo_positive; [apply wrap_range | assumption]. Qed.

(** What a tick after the first successful one does when the interval
    holds at least one whole second. *)
Lemma tick_rate (args : netDevArgs.t) (st : loop_state) (fs : filesystem)
    (stats : gmap string tsNetDev) :
  readNetDev toInt64 args fs = Ok stats ->
  firstIteration st = false ->
  0 < time.SecondsInt64 (netDevArgs.Interval args) ->
  tick toInt64 args st fs =
    Next (stored stats)
      [Callback
         {| TsCallData.Name := netDevArgs.Name args;
            TsCallData.BytesTx :=
              Z.max 0 (Z.quot (Int64.sub (snd (totals stats)) (lastTx st))
                              (time.SecondsInt64 (netDevArgs.Interval args)));
            TsCallData.BytesRx :=
              Z.max 0 (Z.quot (Int64.sub (fst (totals stats)) (lastRx st))
                              (time.SecondsInt64 (netDevArgs.Interval args)));
            TsCallData.Interval := netDevArgs.Interval args;
            TsCallData.Interfaces := netDevArgs.Interfaces args |}].
Proof.
  intros Hr Hf Hs. rewrite (tick_later _ _ _ _ _ Hr Hf). cbv zeta.
  rewrite !delta_quotient by assumption. rewrite !clamp_max. reflexivity.
Qed.

Lemma tick_zero_seconds (args : netDevArgs.t) (st : loop_state) (fs : filesystem)
    (stats : gmap string tsNetDev) :
  readNetDev toInt64 args fs = Ok stats ->
  firstIteration st = false ->
  time.SecondsInt64 (netDevArgs.Interval args) = 0 ->
  tick toInt64 args st fs = Panicked.
Proof.
  intros Hr Hf Hs. rewrite (tick_later _ _ _ _ _ Hr Hf). cbv zeta.
  rewrite Hs. reflexivity.
Qed.

End Rates.

(** C1, as the code has it.  On a tick after the first successful one
    whose read succeeds, with an interval of at least one second, the
    callback receives for each direction the int64 difference of the
    current and the previous total (wrapping around), divided with
    truncation toward zero by [int64(Interval.Seconds())] and clamped at
    zero.  For every interval below 2^24 seconds that divisor is the
    whole seconds of the interval, the fraction dropped, so that it never
    exceeds the true length; when moreover the difference of the totals
    fits an int64, the rate is the one the specification words.  From
    1000 to 3000 bytes over a 2-second interval the rate is 1000. *)
Theorem rate_is_delta_over_whole_seconds
    (toInt64 : string -> Z) (args : netDevArgs.t) (st : loop_state)
    (fs : filesystem) (stats : gmap string tsNetDev) :
  time.Second <= netDevArgs.Interval args <= Int64.max_int ->
  readNetDev toInt64 args fs = Ok stats ->
  firstIteration st = false ->
  let d := netDevArgs.Interval args in
  let secs := time.SecondsInt64 d in
  let rx := Z.max 0 (Z.quot (Int64.sub (fst (totals stats)) (lastRx st)) secs) in
  let tx := Z.max 0 (Z.quot (Int64.sub (snd (totals stats)) (lastTx st)) secs) in
  tick toInt64 args st fs =
    Next (stored stats)
         [Callback {| TsCallData.Name := netDevArgs.Name args;
                      TsCallData.BytesTx := tx;
                      TsCallData.BytesRx := rx;
                      TsCallData.Interval := d;
                      TsCallData.Interfaces := netDevArgs.Interfaces args |}] /\
  (d < 2 ^ 24 * time.Second ->
   secs = Z.quot d time.Second /\ secs * time.Second <= d /\
   (Int64.in_range (fst (totals stats) - lastRx st) ->
    rx = spec_rate (fst (totals stats)) (lastRx st) d) /\
   (Int64.in_range (snd (totals stats) - lastTx st) ->
    tx = spec_rate (snd (totals stats)) (lastTx st) d)) /\
  (d = 2 * time.Second -> lastRx st = 1000 -> fst (totals stats) = 3000 -> rx = 1000).
Proof.
  intros Hd Hr Hf d secs rx tx.
  assert (Hd' : 0 < d < 2 ^ 63) by (unfold time.Second, Int64.max_int in Hd; subst d; lia).
  assert (Hs : 0 < secs).
  { pose proof (SecondsInt64_nonneg d ltac:(lia)) as Hs0.
    pose proof (proj1 (SecondsInt64_zero_iff d Hd')) as Hz.
    destruct (Z.eq_dec secs 0) as [H0 | Hnz]; [apply Hz in H0; subst d; lia | subst secs; lia]. }
  assert (Hwhole : d < 2 ^ 24 * time.Second -> secs = Z.quot d time.Second).
  { intros Hlt. subst secs. rewrite SecondsInt64_whole by lia.
    symmetry. apply Z.quot_div_nonneg; unfold time.Second; lia. }
  split; [apply tick_rate; assumption|]. split.
  - intros Hlt. specialize (Hwhole Hlt). split; [exact Hwhole|]. split.
    + rewrite Hwhole, Z.quot_div_nonneg by (unfold time.Second; lia).
      pose proof (Z.mul_div_le d time.Second ltac:(unfold time.Second; lia)). lia.
    + split; intros Hfit; subst rx tx; unfold spec_rate, Int64.sub;
        rewrite (wrap_in_range _ Hfit), Hwhole; reflexivity.
  - intros H2 Hlast Htot. subst rx.
    rewrite Hwhole by (rewrite H2; unfold time.Second; lia).
    rewrite H2, Hlast, Htot. reflexivity.
Qed.

Lemma rate_is_delta_over_whole_seconds_witness :
  let args := Examples.args_every (2 * time.Second) in
  let st := Examples.running 1000 500 in
  let fs := Examples.source (Examples.header ++ Examples.eth0_line "3000" "700")%string in
  let stats : gmap string tsNetDev := {[ "eth0"%string := Examples.eth0_sample 3000 700 ]} in
  time.Second <= netDevArgs.Interval args <= Int64.max_int /\
  readNetDev mto.Int64 args fs = Ok stats /\
  firstIteration st = false /\
  tick mto.Int64 args st fs =
    Next (Examples.running 3000 700)
         [Callback {| TsCallData.Name := "all"; TsCallData.BytesTx := 100;
                      TsCallData.BytesRx := 1000; TsCallData.Interval := 2000000000;
                      TsCallData.Interfaces := None |}].
Proof.
  intros args st fs stats.
  assert (Hd : time.Second <= netDevArgs.Interval args <= Int64.max_int)
    by (split; discriminate).
  assert (Hr : readNetDev mto.Int64 args fs = Ok stats) by (vm_compute; reflexivity).
  split; [exact Hd|]. split; [exact Hr|]. split; [reflexivity|].
  rewrite (proj1 (rate_is_delta_over_whole_seconds mto.Int64 args st fs stats Hd Hr eq_refl)).
  vm_compute. reflexivity.
Defined.

(** C1, as the specification has it, fails: an interval of 16777216
    seconds and 999999999 nanoseconds has 16777216 whole seconds, but
    summed in float64 it gives 16777217.0, so a delta of 33554432 bytes
    is emitted as 1 byte per second and not as 2. *)
Lemma rate_divisor_counterexample :
  let d := 16777216999999999 in
  Z.rem d time.Second <> 0 /\
  spec_rate 33554432 0 d = 2 /\
  calculate mto.Int64 (Examples.args_every d)
    [Examples.source (Examples.header ++ Examples.eth0_line "0" "0")%string;
     Examples.source (Examples.header ++ Examples.eth0_line "33554432" "0")%string]
  = ([[];
      [Callback {| TsCallData.Name := "all";
                   TsCallData.BytesTx := 0;
                   TsCallData.BytesRx := 1;
                   TsCallData.Interval := d;
                   TsCallData.Interfaces := None |}]],
     Waiting (Examples.running 33554432 0)).
Proof.
  cbv zeta. split; [vm_compute; discriminate|]. split; vm_compute; reflexivity.
Qed.

(** C2, as the code has it.  No emitted rate is negative; and when the
    current total is smaller than the previous one and their difference
    fits an int64, as it does when neither total is negative, the rate
    emitted for that direction is 0. *)
Theorem negative_delta_clamped
    (toInt64 : string -> Z) (args : netDevArgs.t) (st st' : loop_state)
    (fs : filesystem) (effs : list effect) (data : TsCallData.t) :
  tick toInt64 args st fs = Next st' effs ->
  Callback data ∈ effs ->
  0 <= TsCallData.BytesRx data /\
  0 <= TsCallData.BytesTx data /\
  exists stats,
    readNetDev toInt64 args fs = Ok stats /\
    (0 < netDevArgs.Interval args ->
     (fst (totals stats) < lastRx st ->
      Int64.in_range (fst (totals stats) - lastRx st) ->
      TsCallData.BytesRx data = 0) /\
     (snd (totals stats) < lastTx st ->
      Int64.in_range (snd (totals stats) - lastTx st) ->
      TsCallData.BytesTx data = 0) /\
     (0 <= fst (totals stats) < lastRx st -> lastRx st <= Int64.max_int ->
      TsCallData.BytesRx data = 0) /\
     (0 <= snd (totals stats) < lastTx st -> lastTx st <= Int64.max_int ->
      TsCallData.BytesTx data = 0)).
Proof.
  intros Ht Hin.
  destruct (tick_Callback _ _ _ _ _ _ _ Ht Hin)
    as (stats & Hr & Hf & _ & _ & Hnz & _ & Hrx & Htx).
  rewrite Hrx, Htx. split; [apply clamp_nonneg|]. split; [apply clamp_nonneg|].
  exists stats. split; [assumption|]. intros Hd.
  pose proof (SecondsInt64_nonneg (netDevArgs.Interval args) ltac:(lia)) as Hs0.
  set (secs := time.SecondsInt64 (netDevArgs.Interval args)) in *.
  assert (Hs : 0 < secs) by lia.
  assert (Hzero : forall total last,
             total < last -> Int64.in_range (total - last) ->
             clamp (Int64.wrap (Z.quot (Int64.sub total last) secs)) = 0).
  { intros total last Hlt Hfit. unfold Int64.sub.
    rewrite (wrap_in_range _ Hfit).
    destruct (quot_toward_zero (total - last) secs Hs) as [_ Hneg].
    specialize (Hneg ltac:(lia)).
    rewrite wrap_in_range
      by (unfold Int64.in_range, Int64.min_int, Int64.max_int in *; lia).
    rewrite clamp_max. lia. }
  split; [apply Hzero|]. split; [apply Hzero|].
  destruct (totals_in_range stats) as [Hrxr Htxr].
  split; intros Hlt Hmax; apply Hzero; try lia;
    unfold Int64.in_range, Int64.min_int, Int64.max_int in *; lia.
Qed.

Lemma negative_delta_clamped_witness :
  let args := Examples.args_every time.Second in
  let st := Examples.running 5000 800 in
  let fs := Examples.source (Examples.header ++ Examples.eth0_line "3000" "700")%string in
  let data :=
    {| TsCallData.Name := "all"%string; TsCallData.BytesTx := 0;
       TsCallData.BytesRx := 0; TsCallData.Interval := 1000000000;
       TsCallData.Interfaces := None |} in
  tick mto.Int64 args st fs = Next (Examples.running 3000 700) [Callback data] /\
  Callback data ∈ [Callback data] /\
  0 <= TsCallData.BytesRx data.
Proof.
  intros args st fs data.
  assert (Ht : tick mto.Int64 args st fs = Next (Examples.running 3000 700) [Callback data])
    by (vm_compute; reflexivity).
  assert (Hin : Callback data ∈ [Callback data]) by (apply list_elem_of_singleton; reflexivity).
  split; [exact Ht|]. split; [exact Hin|].
  exact (proj1 (negative_delta_clamped mto.Int64 args st _ fs _ data Ht Hin)).
Defined.

(** C2, as the specification has it, fails when the difference of the
    totals leaves the int64 range: the previous total is 2^63 - 1, the
    current one (two interfaces of 2^63 - 1 bytes each, the sum wrapping
    around) is -2, and the rate emitted is 2^63 - 1. *)
Lemma negative_delta_counterexample :
  let args := Examples.args_every time.Second in
  let before :=
    Examples.source (Examples.header ++ Examples.eth0_line Examples.max_text "0")%string in
  let after :=
    Examples.source (Examples.header ++ Examples.eth0_line Examples.max_text "0"
                                     ++ Examples.eth1_line Examples.max_text "0")%string in
  tick mto.Int64 args initial before = Next (Examples.running 9223372036854775807 0) [] /\
  tick mto.Int64 args initial after = Next (Examples.running (-2) 0) [] /\
  -2 < 9223372036854775807 /\
  calculate mto.Int64 args [before; after]
  = ([[];
      [Callback {| TsCallData.Name := "all";
                   TsCallData.BytesTx := 0;
                   TsCallData.BytesRx := 9223372036854775807;
                   TsCallData.Interval := 1000000000;
                   TsCallData.Interfaces := None |}]],
     Waiting (Examples.running (-2) 0)).
Proof.
  cbv zeta. repeat split; vm_compute; reflexivity.
Qed.

(** ** A failed read *)

Section FailedRead.

Variable toInt64 : string -> Z.
Variable args : netDevArgs.t.

(** The read fails exactly on a source that does not open, and on one
    whose scan ends in an error after a pass that did not panic. *)
Lemma readNetDev_Err (fs : filesystem) (e : error) :
  readNetDev toInt64 args fs = Err e <->
  fs (netDevArgs.Path args) = NoFile e \/
  exists data rderr lines items,
    fs (netDevArgs.Path args) = File data rderr /\
    Scanner data rderr = (lines, Some e) /\
    scan_loop toInt64 args lines ∅ = Some items.
Proof.
  unfold readNetDev. destruct (fs (netDevArgs.Path args)) as [e' | data rderr].
  - split.
    + intros [= ->]. left. reflexivity.
    + intros [[= ->] | (? & ? & ? & ? & [=] & _)]. reflexivity.
  - destruct (Scanner data rderr) as [lines err] eqn:Hsc.
    destruct (scan_loop toInt64 args lines ∅) as [items|] eqn:Hloop.
    + destruct err as [e'|].
      * split.
        -- intros [= ->]. right. exists data, rderr, lines, items. auto.
        -- intros [[=] | (d & r & l & i & [= <- <-] & Hs & _)].
           rewrite Hsc in Hs. injection Hs as _ ->. reflexivity.
      * split; [discriminate|].
        intros [[=] | (d & r & l & i & [= <- <-] & Hs & _)].
        rewrite Hsc in Hs. discriminate.
    + split; [discriminate|].
      intros [[=] | (d & r & l & i & [= <- <-] & Hs & Hl)].
      rewrite Hsc in Hs. injection Hs as <- _. rewrite Hloop in Hl. discriminate.
Qed.

End FailedRead.

(** A tick whose read returns an error (the source does not open, or
    the scan ends in an error after a pass that did not panic) reports
    the error to the log and does nothing else: the state of the loop is
    the one before the tick, the callback is not called, and the loop goes
    on with the next tick. *)
Lemma returned_error_changes_nothing
    (toInt64 : string -> Z) (args : netDevArgs.t) (st : loop_state)
    (fs : filesystem) (e : error) :
  readNetDev toInt64 args fs = Err e ->
  (fs (netDevArgs.Path args) = NoFile e \/
   exists data rderr lines items,
     fs (netDevArgs.Path args) = File data rderr /\
     Scanner data rderr = (lines, Some e) /\
     scan_loop toInt64 args lines ∅ = Some items) /\
  tick toInt64 args st fs = Next st [LogError e] /\
  (forall rest,
     ticks toInt64 args st (fs :: rest) =
       ([LogError e] :: fst (ticks toInt64 args st rest),
        snd (ticks toInt64 args st rest))) /\
  (forall ch,
     tick_ready ch = true ->
     step toInt64 args (Inner st, ch) [LogError e]
          (Inner st, {| done := done ch; tick_ready := false |})).
Proof.
  intros Hr. pose proof (tick_Err toInt64 args st fs e Hr) as Ht.
  split; [apply readNetDev_Err, Hr|]. split; [exact Ht|]. split.
  - intros rest. cbn [ticks]. rewrite Ht.
    destruct (ticks toInt64 args st rest). reflexivity.
  - intros ch Hready. eapply step_tick; eassumption.
Qed.

(** A source that does not open is such a read. *)
Lemma open_error_changes_nothing
    (toInt64 : string -> Z) (args : netDevArgs.t) (st : loop_state)
    (fs : filesystem) (e : error) :
  fs (netDevArgs.Path args) = NoFile e ->
  tick toInt64 args st fs = Next st [LogError e].
Proof.
  intros Hfs. apply tick_Err. unfold readNetDev. rewrite Hfs. reflexivity.
Qed.

(** C4 fails on the code for a read error that cuts a line short.  The
    source delivers [eth0: 1 2] and then fails: the scanner hands the
    unterminated line to the loop before it reports the error, the line
    has three fields, and [fields[count()]] panics.  The read returns no
    error, the tick panics, and the goroutine ends in its [recover]: the
    loop stops where it should go on with the next tick. *)
Theorem truncated_read_stops_loop (toInt64 : string -> Z) (e : error) :
  let args := Examples.args_every time.Second in
  let fs : filesystem := fun _ => File Examples.short_line (Some e) in
  Scanner Examples.short_line (Some e) = ([Examples.short_line], Some e) /\
  readNetDev toInt64 args fs = Panic /\
  (forall st, tick toInt64 args st fs = Panicked) /\
  (forall st rest, ticks toInt64 args st (fs :: rest) = ([], Crashed)) /\
  (forall st ch,
     tick_ready ch = true ->
     step toInt64 args (Inner st, ch) [panic_report] (Recovered, ch)) /\
  (forall ch effs c', ~ step toInt64 args (Recovered, ch) effs c').
Proof.
  intros args fs.
  assert (Hr : readNetDev toInt64 args fs = Panic) by reflexivity.
  assert (Ht : forall st, tick toInt64 args st fs = Panicked)
    by (intros st; apply tick_Panic, Hr).
  split; [reflexivity|]. split; [exact Hr|]. split; [exact Ht|]. split; [|split].
  - intros st rest. cbn [ticks]. rewrite Ht. reflexivity.
  - intros st ch Hready. eapply step_tick_panic; [exact Hready | apply Ht].
  - intros ch effs c' Hstep. inversion Hstep.
Qed.

(** C10.  An interval above zero and below one second has
    [int64(Interval.Seconds()) = 0]: the tick after the first successful
    one divides by zero and panics, and a run of two successful ticks
    ends in that panic without a call of the callback.  From one second
    on the divisor is not zero and the division does not panic. *)
Theorem subsecond_interval_divides_by_zero
    (toInt64 : string -> Z) (args : netDevArgs.t) :
  0 < netDevArgs.Interval args <= Int64.max_int ->
  (time.SecondsInt64 (netDevArgs.Interval args) = 0 <->
   netDevArgs.Interval args < time.Second) /\
  (netDevArgs.Interval args < time.Second ->
   (forall st fs stats,
      readNetDev toInt64 args fs = Ok stats ->
      firstIteration st = false ->
      tick toInt64 args st fs = Panicked) /\
   (forall fs1 fs2 stats1 stats2,
      readNetDev toInt64 args fs1 = Ok stats1 ->
      readNetDev toInt64 args fs2 = Ok stats2 ->
      calculate toInt64 args [fs1; fs2] = ([[]], Crashed))) /\
  (time.Second <= netDevArgs.Interval args ->
   forall x, Int64.quo x (time.SecondsInt64 (netDevArgs.Interval args)) <> None).
Proof.
  intros Hd.
  assert (Hd' : 0 < netDevArgs.Interval args < 2 ^ 63)
    by (unfold Int64.max_int in Hd; lia).
  pose proof (SecondsInt64_zero_iff _ Hd') as Hiff.
  split; [exact Hiff|]. split.
  - intros Hlt. apply Hiff in Hlt. split.
    + intros st fs stats Hr Hf. eapply tick_zero_seconds; eassumption.
    + intros fs1 fs2 stats1 stats2 Hr1 Hr2. unfold calculate.
      destruct (Z.leb_spec (netDevArgs.Interval args) 0); [lia|].
      cbn [ticks]. rewrite (tick_first toInt64 args initial fs1 stats1 Hr1 eq_refl).
      rewrite (tick_zero_seconds toInt64 args (stored stats1) fs2 stats2 Hr2 eq_refl Hlt).
      reflexivity.
  - intros Hge x Hq. unfold Int64.quo in Hq.
    destruct (Z.eqb_spec (time.SecondsInt64 (netDevArgs.Interval args)) 0) as [Hz|];
      [|discriminate].
    apply Hiff in Hz. lia.
Qed.

Lemma subsecond_interval_divides_by_zero_witness :
  let args := Examples.args_every 500000000 in
  let fs := Examples.source (Examples.header ++ Examples.eth0_line "3000" "700")%string in
  0 < netDevArgs.Interval args <= Int64.max_int /\
  netDevArgs.Interval args < time.Second /\
  time.SecondsInt64 (netDevArgs.Interval args) = 0 /\
  calculate mto.Int64 args [fs; fs] = ([[]], Crashed).
Proof.
  intros args fs.
  assert (Hd : 0 < netDevArgs.Interval args <= Int64.max_int) by (split; [reflexivity | discriminate]).
  assert (Hlt : netDevArgs.Interval args < time.Second) by reflexivity.
  assert (Hr : readNetDev mto.Int64 args fs
               = Ok {[ "eth0"%string := Examples.eth0_sample 3000 700 ]})
    by (vm_compute; reflexivity).
  destruct (subsecond_interval_divides_by_zero mto.Int64 args Hd) as (Hiff & Hsub & _).
  split; [exact Hd|]. split; [exact Hlt|]. split; [apply Hiff, Hlt|].
  exact (proj2 (Hsub Hlt) fs fs _ _ Hr Hr).
Defined.

(** ** The string functions *)

Section StringFacts.

Lemma prefix_empty (s : string) : String.prefix EmptyString s = true.
Proof. destruct s; reflexivity. Qed.

(** [strings.Contains(line, ":")] tells whether the byte [:] occurs. *)
Lemma Contains_colon (s : string) :
  strings.Contains s ":" = true <-> ":"%char ∈ String.list_ascii_of_string s.
Proof.
  rewrite list_elem_of_In. induction s as [|c s IH].
  - cbn. split; [discriminate | tauto].
  - cbn [strings.Contains String.list_ascii_of_string In String.prefix].
    rewrite orb_true_iff, IH.
    destruct (ascii_dec ":" c) as [<- | Hne].
    + rewrite prefix_empty. tauto.
    + split; [intros [? | ?]; [discriminate | tauto] | intros [? | ?]; [congruence | tauto]].
Qed.

Lemma slices_Contains_elem_of (l : list string) (v : string) :
  slices.Contains l v = true <-> v ∈ l.
Proof.
  induction l as [|x l IH]; cbn.
  - split; [discriminate | intros H; inversion H].
  - rewrite orb_true_iff, IH, String.eqb_eq, elem_of_cons.
    split; intros [? | ?]; auto.
Qed.

End StringFacts.

(** ** The reader *)

Section FilterFacts.

Lemma filtered_out_allowed (args : netDevArgs.t) (name : string) :
  filtered_out args name = false <-> allowed args name.
Proof.
  unfold filtered_out, allowed. destruct (netDevArgs.Interfaces args) as [l|].
  - rewrite negb_false_iff. apply slices_Contains_elem_of.
  - tauto.
Qed.

Lemma kept_name_Some (args : netDevArgs.t) (line name : string) :
  kept_name args line = Some name <->
  strings.Contains line ":" = true /\ ifname_of line = Some name /\ allowed args name.
Proof.
  unfold kept_name. rewrite <- filtered_out_allowed.
  destruct (strings.Contains line ":"); [|split; [discriminate | intros [[=] _]]].
  destruct (ifname_of line) as [n|]; cbn; [|split; [discriminate | intros (_ & [=] & _)]].
  destruct (filtered_out args n) eqn:Hf.
  - split; [discriminate | intros (_ & [= ->] & Hf'); congruence].
  - split; [intros [= ->]; auto | intros (_ & [= ->] & _); reflexivity].
Qed.

End FilterFacts.

Section ReaderFacts.

Variable toInt64 : string -> Z.
Variable args : netDevArgs.t.

(** The turn, with the name of the line taken by [ifname_of]. *)
Lemma scan_turn_ifname (line : string) (items : gmap string tsNetDev) :
  scan_turn toInt64 args line items =
    if negb (strings.Contains line ":") then Some items
    else
      ifname ← ifname_of line;
      if filtered_out args ifname then Some items
      else
        '(iface, _) ← iface_of toInt64 (strings.Fields line) ifname (mfunc.NewCounter 1);
        Some (<[ifname := iface]> items).
Proof.
  unfold scan_turn, ifname_of. destruct (strings.Fields line !! 0%nat); reflexivity.
Qed.

(** A line without a colon leaves the map as it is. *)
Lemma scan_turn_header (line : string) (items : gmap string tsNetDev) :
  strings.Contains line ":" = false ->
  scan_turn toInt64 args line items = Some items.
Proof. intros H. unfold scan_turn. rewrite H. reflexivity. Qed.

(** A turn that does not panic enters the line under its name, or
    leaves the map as it is. *)
Lemma scan_turn_Some (line : string) (items items' : gmap string tsNetDev) :
  scan_turn toInt64 args line items = Some items' ->
  match kept_name args line with
  | Some name => exists iface, items' = <[name := iface]> items
  | None => items' = items
  end.
Proof.
  rewrite scan_turn_ifname. unfold kept_name.
  destruct (strings.Contains line ":"); cbn; [|intros [= <-]; reflexivity].
  destruct (ifname_of line) as [name|]; cbn; [|discriminate].
  destruct (filtered_out args name); [intros [= <-]; reflexivity|].
  destruct (iface_of toInt64 (strings.Fields line) name (mfunc.NewCounter 1))
    as [[iface c]|]; cbn; [|discriminate].
  intros [= <-]. exists iface. reflexivity.
Qed.

(** The keys after the loop: those before it and the names of the
    lines that were entered. *)
Lemma scan_loop_dom (lines : list string) (items items' : gmap string tsNetDev) :
  scan_loop toInt64 args lines items = Some items' ->
  dom items' = dom items ∪ list_to_set (omap (kept_name args) lines).
Proof.
  revert items. induction lines as [|line rest IH]; intros items; cbn [scan_loop].
  - intros [= <-]. cbn [omap list_omap]. rewrite list_to_set_nil, (right_id_L ∅ (∪)). reflexivity.
  - destruct (scan_turn toInt64 args line items) as [items1|] eqn:Hturn; [|discriminate].
    intros Hloop. rewrite (IH _ Hloop). apply scan_turn_Some in Hturn.
    cbn [omap list_omap]. destruct (kept_name args line) as [name|].
    + destruct Hturn as [iface ->]. rewrite dom_insert_L, list_to_set_cons.
      rewrite (comm_L (∪) {[name]} (dom items)), <- (assoc_L (∪)). reflexivity.
    + subst items1. reflexivity.
Qed.

(** Header lines can be left out of the pass. *)
Lemma scan_loop_without_headers (lines : list string) (items : gmap string tsNetDev) :
  scan_loop toInt64 args lines items =
  scan_loop toInt64 args (filter (fun l => strings.Contains l ":" = true) lines) items.
Proof.
  revert items. induction lines as [|line rest IH]; intros items; [reflexivity|].
  rewrite filter_cons. destruct (decide (strings.Contains line ":" = true)) as [Hc | Hc].
  - cbn [scan_loop]. destruct (scan_turn toInt64 args line items); auto.
  - cbn [scan_loop]. rewrite scan_turn_header by (destruct (strings.Contains line ":"); congruence).
    apply IH.
Qed.

Lemma readNetDev_Ok (fs : filesystem) (items : gmap string tsNetDev) :
  readNetDev toInt64 args fs = Ok items <->
  exists data lines,
    fs (netDevArgs.Path args) = File data None /\
    Scanner data None = (lines, None) /\
    scan_loop toInt64 args lines ∅ = Some items.
Proof.
  unfold readNetDev. destruct (fs (netDevArgs.Path args)) as [e | data rderr].
  - split; [discriminate | intros (? & ? & [=] & _)].
  - destruct (Scanner data rderr) as [lines err] eqn:Hsc.
    assert (Herr : err = None -> rderr = None).
    { unfold Scanner in Hsc. destruct (bufio.scan _) as [ts long].
      injection Hsc as _ <-. destruct long; [discriminate | auto]. }
    destruct (scan_loop toInt64 args lines ∅) as [items0|] eqn:Hloop.
    + destruct err as [e|].
      * split; [discriminate|]. intros (d & l & [= <- ->] & Hs & _).
        rewrite Hsc in Hs. discriminate.
      * specialize (Herr eq_refl). subst rderr. split.
        -- intros [= <-]. exists data, lines. auto.
        -- intros (d & l & [= <-] & Hs & Hl). rewrite Hsc in Hs.
           injection Hs as <-. rewrite Hloop in Hl. injection Hl as <-. reflexivity.
    + split; [discriminate|]. intros (d & l & [= <- ->] & Hs & Hl).
      rewrite Hsc in Hs. injection Hs as <- _. rewrite Hloop in Hl. discriminate.
Qed.

End ReaderFacts.

(** ** The fields of a well-formed line *)

Section WellFormedLines.

Import strings.
Local Open Scope string_scope.

Lemma append_cons (c : ascii) (s t : string) : String c s ++ t = String c (s ++ t).
Proof. reflexivity. Qed.

Lemma append_empty_r (s : string) : s ++ "" = s.
Proof. induction s as [|c s IH]; [reflexivity|]. rewrite append_cons, IH. reflexivity. Qed.

Lemma append_assoc (s t u : string) : (s ++ t) ++ u = s ++ (t ++ u).
Proof. induction s as [|c s IH]; [reflexivity|]. rewrite !append_cons, IH. reflexivity. Qed.

Lemma space_width_asciiSpace (c : ascii) (s : string) :
  asciiSpace c = true -> space_width (String c s) = 1%nat.
Proof. intros H. cbn [space_width]. rewrite H. reflexivity. Qed.

Lemma space_width_ascii (c : ascii) (s : string) :
  asciiSpace c = false -> (N_of_ascii c < 128)%N -> space_width (String c s) = 0%nat.
Proof.
  intros Hsp Hlt. cbn [space_width]. rewrite Hsp.
  destruct s as [|c2 [|c3 r]]; [reflexivity|..].
  - destruct (N.eqb_spec (N_of_ascii c) 194); [lia | reflexivity].
  - destruct (N.eqb_spec (N_of_ascii c) 194); [lia|].
    destruct (N.eqb_spec (N_of_ascii c) 225); [lia|].
    destruct (N.eqb_spec (N_of_ascii c) 226); [lia|].
    destruct (N.eqb_spec (N_of_ascii c) 227); [lia|]. reflexivity.
Qed.

(** The bytes of a field join the field being collected. *)
Lemma fields_from_field (t f rest : string) :
  Forall (fun c => asciiSpace c = false /\ (N_of_ascii c < 128)%N)
         (String.list_ascii_of_string t) ->
  fields_from 0 (Some f) (t ++ rest) = fields_from 0 (Some (f ++ t)) rest.
Proof.
  revert f. induction t as [|c t IH]; intros f Ht.
  - change ("" ++ rest) with rest. rewrite append_empty_r. reflexivity.
  - cbn [String.list_ascii_of_string] in Ht. apply Forall_cons in Ht as [[Hsp Hlt] Ht].
    rewrite append_cons. cbn [fields_from]. rewrite (space_width_ascii c _ Hsp Hlt).
    unfold push. cbn [default]. rewrite (IH _ Ht), append_assoc, append_cons. reflexivity.
Qed.

Lemma fields_from_token (t rest : string) :
  is_token t ->
  fields_from 0 None (t ++ rest) = fields_from 0 (Some t) rest.
Proof.
  intros [Hne Ht]. destruct t as [|c t]; [contradiction|].
  cbn [String.list_ascii_of_string] in Ht. apply Forall_cons in Ht as [[Hsp Hlt] Ht].
  rewrite append_cons. cbn [fields_from]. rewrite (space_width_ascii c _ Hsp Hlt).
  unfold push. cbn [default]. change ("" ++ String c "") with (String c "").
  rewrite (fields_from_field _ _ _ Ht). reflexivity.
Qed.

(** White space before a field is passed over. *)
Lemma fields_from_blank (b rest : string) :
  is_blank b -> fields_from 0 None (b ++ rest) = fields_from 0 None rest.
Proof.
  unfold is_blank. induction b as [|c b IH]; intros Hb; [reflexivity|].
  cbn [String.list_ascii_of_string] in Hb. apply Forall_cons in Hb as [Hsp Hb].
  rewrite append_cons. cbn [fields_from]. rewrite (space_width_asciiSpace c _ Hsp).
  cbn [flush app]. apply IH, Hb.
Qed.

(** White space after a field ends it. *)
Lemma fields_from_separator (b f rest : string) :
  is_blank b -> b <> "" ->
  fields_from 0 (Some f) (b ++ rest) = f :: fields_from 0 None rest.
Proof.
  intros Hb Hne. destruct b as [|c b]; [contradiction|].
  unfold is_blank in Hb. cbn [String.list_ascii_of_string] in Hb.
  apply Forall_cons in Hb as [Hsp Hb].
  rewrite append_cons. cbn [fields_from]. rewrite (space_width_asciiSpace c _ Hsp).
  cbn [flush app]. f_equal. apply fields_from_blank, Hb.
Qed.

(** Fields written one after the other, each after white space, are
    the fields [strings.Fields] finds. *)
Lemma fields_from_spaced (f : string) (pairs : list (string * string)) :
  Forall (fun p => is_blank (fst p) /\ fst p <> "" /\ is_token (snd p)) pairs ->
  fields_from 0 (Some f) (spaced pairs) = f :: pairs.*2.
Proof.
  revert f. induction pairs as [|[sep t] pairs IH]; intros f Hall; [reflexivity|].
  apply Forall_cons in Hall as [(Hb & Hne & Ht) Hall]. cbn [fst snd] in *.
  cbn [spaced fmap list_fmap snd]. rewrite (fields_from_separator _ _ _ Hb Hne).
  rewrite (fields_from_token _ _ Ht), (IH _ Hall). reflexivity.
Qed.

Lemma Fields_line (pad first : string) (pairs : list (string * string)) :
  is_blank pad -> is_token first ->
  Forall (fun p => is_blank (fst p) /\ fst p <> "" /\ is_token (snd p)) pairs ->
  Fields (pad ++ first ++ spaced pairs) = first :: pairs.*2.
Proof.
  intros Hpad Hfirst Hall. unfold Fields.
  rewrite (fields_from_blank _ _ Hpad), (fields_from_token _ _ Hfirst).
  apply fields_from_spaced, Hall.
Qed.

Lemma Forall_zip_pairs {A B : Type} (P : A -> Prop) (Q : B -> Prop)
    (l : list A) (k : list B) :
  Forall P l -> Forall Q k -> Forall (fun p => P (fst p) /\ Q (snd p)) (zip l k).
Proof.
  intros Hl. revert k. induction Hl as [|x l Hx Hl IH]; intros k Hk; [constructor|].
  destruct Hk as [|y k Hy Hk]; [constructor|]. cbn. constructor; [auto | apply IH, Hk].
Qed.

Lemma is_token_colon (name : string) : is_token name -> is_token (name ++ ":").
Proof.
  intros [Hne Hall]. split; [destruct name; [contradiction | discriminate]|].
  clear Hne. induction name as [|c name IH].
  - repeat constructor.
  - rewrite append_cons. cbn [String.list_ascii_of_string] in *.
    apply Forall_cons in Hall as [Hc Hall]. constructor; auto.
Qed.

Lemma Contains_colon_after (pad name rest : string) :
  Contains (pad ++ (name ++ ":") ++ rest) ":" = true.
Proof.
  apply Contains_colon. rewrite list_elem_of_In.
  induction pad as [|c pad IH]; [|right; exact IH].
  cbn [String.append]. induction name as [|c name IH]; [left; reflexivity | right; exact IH].
Qed.

Lemma TrimLeft_colonless (s : string) :
  colonless s -> TrimLeft (s ++ ":") ":" = (if s is EmptyString then "" else s ++ ":").
Proof.
  intros Hs. destruct s as [|c s]; [reflexivity|].
  unfold colonless in Hs. cbn [String.list_ascii_of_string] in Hs.
  apply Forall_cons in Hs as [Hc _].
  rewrite append_cons. cbn [TrimLeft byte_in String.list_ascii_of_string existsb].
  destruct (Ascii.eqb_spec c ":"); [contradiction | reflexivity].
Qed.

Lemma TrimRight_colonless (s : string) :
  colonless s -> TrimRight (s ++ ":") ":" = s.
Proof.
  unfold colonless. induction s as [|c s IH]; intros Hs; [reflexivity|].
  cbn [String.list_ascii_of_string] in Hs. apply Forall_cons in Hs as [Hc Hs].
  rewrite append_cons. cbn [TrimRight]. rewrite (IH Hs).
  destruct s; [|reflexivity]. cbn [byte_in String.list_ascii_of_string existsb].
  destruct (Ascii.eqb_spec c ":"); [contradiction | reflexivity].
Qed.

(** The name of a line is what stands before its colon. *)
Lemma Trim_name (name : string) :
  is_token name -> colonless name -> Trim (name ++ ":") ":" = name.
Proof.
  intros [Hne _] Hcl. unfold Trim. rewrite (TrimLeft_colonless _ Hcl).
  destruct name; [contradiction|]. apply TrimRight_colonless, Hcl.
Qed.

End WellFormedLines.

(** ** The first field of a line, and lines that are too short *)

Section FieldsFacts.

Import strings.

(** No byte of a white space character is a colon. *)
Lemma space_width_colon_free (s : string) : colon_free (space_width s) s.
Proof.
  destruct s as [|c [|c2 [|c3 r]]]; cbn [space_width];
    repeat match goal with
           | |- context [if ?b then _ else _] => destruct b eqn:?
           end;
    cbn [colon_free]; repeat split; try exact I;
    intros ->;
    repeat match goal with
           | H : _ && _ = true |- _ => apply andb_prop in H as [? ?]
           end;
    match goal with
    | H : _ = true |- _ => vm_compute in H; discriminate H
    end.
Qed.

Lemma fields_from_started (s : string) (skip : nat) (f : string) :
  fields_from skip (Some f) s <> [].
Proof.
  revert skip f. induction s as [|c s IH]; intros skip f; cbn [fields_from].
  - discriminate.
  - destruct skip as [|k]; [|apply IH].
    destruct (space_width (String c s)); [apply IH | discriminate].
Qed.

Lemma fields_from_colon (s : string) (skip : nat) (cur : option string) :
  ":"%char ∈ String.list_ascii_of_string s ->
  colon_free skip s ->
  fields_from skip cur s <> [].
Proof.
  revert skip cur. induction s as [|c s IH]; intros skip cur Hin Hfree.
  - cbn in Hin. apply elem_of_nil in Hin. contradiction.
  - cbn [String.list_ascii_of_string] in Hin. apply elem_of_cons in Hin.
    cbn [fields_from]. destruct skip as [|k].
    + pose proof (space_width_colon_free (String c s)) as Hsp.
      destruct (space_width (String c s)) as [|k]; [apply fields_from_started|].
      cbn [colon_free] in Hsp. destruct Hsp as [Hc Hrest].
      destruct Hin as [Heq | Hin]; [congruence|].
      intros Happ. apply app_eq_nil in Happ as [_ Happ].
      revert Happ. apply IH; assumption.
    + cbn [colon_free] in Hfree. destruct Hfree as [Hc Hrest].
      destruct Hin as [Heq | Hin]; [congruence|]. apply IH; assumption.
Qed.

End FieldsFacts.

Section ShortLines.

Variable toInt64 : string -> Z.

(** A line with a colon has a first field: [fields[0]] does not
    panic. *)
Lemma first_field_exists (line : string) :
  strings.Contains line ":" = true -> exists name, ifname_of line = Some name.
Proof.
  intros Hc. apply Contains_colon in Hc.
  pose proof (fields_from_colon line 0 None Hc I) as Hne.
  unfold ifname_of, strings.Fields.
  destruct (strings.fields_from 0 None line) as [|f0 fs]; [contradiction|].
  eexists. reflexivity.
Qed.

Lemma iface_of_short (fields : list string) (ifname : string) :
  (length fields < 17)%nat ->
  iface_of toInt64 fields ifname (mfunc.NewCounter 1) = None.
Proof.
  intros Hlen.
  do 17 (destruct fields as [|? fields]; [reflexivity|]).
  cbn in Hlen. lia.
Qed.

Lemma iface_of_long (fields : list string) (ifname : string) :
  (17 <= length fields)%nat ->
  exists iface, iface_of toInt64 fields ifname (mfunc.NewCounter 1) = Some (iface, 17%nat).
Proof.
  intros Hlen.
  do 17 (destruct fields as [|? fields]; [cbn in Hlen; lia|]).
  eexists. reflexivity.
Qed.

(** A line that is entered panics exactly when it has fewer than
    seventeen fields. *)
Lemma scan_turn_kept (args : netDevArgs.t) (line name : string)
    (items : gmap string tsNetDev) :
  kept_name args line = Some name ->
  ((length (strings.Fields line) < 17)%nat ->
   scan_turn toInt64 args line items = None) /\
  ((17 <= length (strings.Fields line))%nat ->
   exists iface, scan_turn toInt64 args line items = Some (<[name := iface]> items)).
Proof.
  intros Hk. apply kept_name_Some in Hk as (Hc & Hn & Hok).
  apply filtered_out_allowed in Hok.
  rewrite scan_turn_ifname, Hc, Hn. cbn [negb mbind option_bind]. rewrite Hok.
  split; intros Hlen.
  - rewrite iface_of_short by assumption. reflexivity.
  - destruct (iface_of_long _ name Hlen) as [iface ->]. exists iface. reflexivity.
Qed.

Lemma scan_turn_dropped (args : netDevArgs.t) (line : string)
    (items : gmap string tsNetDev) :
  kept_name args line = None ->
  scan_turn toInt64 args line items = Some items.
Proof.
  intros Hk. rewrite scan_turn_ifname. unfold kept_name in Hk.
  destruct (strings.Contains line ":") eqn:Hc; [|reflexivity].
  destruct (first_field_exists line Hc) as [name Hn].
  rewrite Hn in *. cbn in *.
  destruct (filtered_out args name); [reflexivity | discriminate].
Qed.

(** The pass over lines that are long enough wherever they are entered
    does not panic, whatever the fields hold. *)
Lemma scan_loop_full_lines (args : netDevArgs.t) (lines : list string)
    (items : gmap string tsNetDev) :
  Forall (fun line => is_Some (kept_name args line) ->
                      (17 <= length (strings.Fields line))%nat) lines ->
  is_Some (scan_loop toInt64 args lines items).
Proof.
  intros Hall. revert items.
  induction Hall as [|line rest Hline Hall IH]; intros items; cbn [scan_loop].
  - eexists. reflexivity.
  - destruct (kept_name args line) as [name|] eqn:Hk.
    + destruct (scan_turn_kept args line name items Hk) as [_ Hlong].
      destruct (Hlong (Hline ltac:(eexists; reflexivity))) as [iface ->]. apply IH.
    + rewrite (scan_turn_dropped args line items Hk). apply IH.
Qed.

(** The pass panics at the first entered line that is too short. *)
Lemma scan_loop_short_line (args : netDevArgs.t) (lines : list string)
    (items : gmap string tsNetDev) :
  Exists (fun line => is_Some (kept_name args line) /\
                      (length (strings.Fields line) < 17)%nat) lines ->
  scan_loop toInt64 args lines items = None.
Proof.
  intros Hex. revert items.
  induction Hex as [line rest [[name Hk] Hshort] | line rest Hex IH]; intros items;
    cbn [scan_loop].
  - destruct (scan_turn_kept args line name items Hk) as [Hpanic _].
    rewrite (Hpanic Hshort). reflexivity.
  - destruct (scan_turn toInt64 args line items); [apply IH | reflexivity].
Qed.

End ShortLines.

(** C5.  A well-formed line (white space or nothing, a name without a
    colon, a colon, and sixteen fields each after white space) is entered
    under its name with the fields converted in the order of the line: the
    first eight as the receive side (bytes, packets, errs, drop, fifo,
    frame, compressed, multicast), the next eight as the transmit side
    (bytes, packets, errs, drop, fifo, colls, carrier, compressed).  The
    line [eth0: 100 2 0 0 0 0 0 0 200 3 0 0 0 0 0 0] gives receive bytes
    100 and packets 2, transmit bytes 200 and packets 3, and 0 everywhere
    else. *)
Theorem fields_map_positionally
    (toInt64 : string -> Z) (args : netDevArgs.t) (items : gmap string tsNetDev)
    (pad name : string) (seps : list string)
    (r1 r2 r3 r4 r5 r6 r7 r8 t1 t2 t3 t4 t5 t6 t7 t8 : string) :
  strings.is_blank pad ->
  strings.is_token name -> strings.colonless name ->
  length seps = 16%nat ->
  Forall (fun sep => strings.is_blank sep /\ sep <> EmptyString) seps ->
  Forall strings.is_token [r1; r2; r3; r4; r5; r6; r7; r8; t1; t2; t3; t4; t5; t6; t7; t8] ->
  allowed args name ->
  let line :=
    (pad ++ (name ++ ":") ++
     strings.spaced
       (zip seps [r1; r2; r3; r4; r5; r6; r7; r8; t1; t2; t3; t4; t5; t6; t7; t8]))%string in
  scan_turn toInt64 args line items =
    Some (<[name :=
             {| Name := name;
                Receive := {| Bytes := toInt64 r1; Packets := toInt64 r2;
                              Errs := toInt64 r3; Drop := toInt64 r4;
                              FIFO := toInt64 r5; Frame := toInt64 r6;
                              Compressed := toInt64 r7; Multicast := toInt64 r8;
                              Colls := 0; Carrier := 0 |};
                Transmit := {| Bytes := toInt64 t1; Packets := toInt64 t2;
                               Errs := toInt64 t3; Drop := toInt64 t4;
                               FIFO := toInt64 t5; Frame := 0;
                               Compressed := toInt64 t8; Multicast := 0;
                               Colls := toInt64 t6; Carrier := toInt64 t7 |} |}]> items) /\
  readNetDev mto.Int64 (Examples.args_every time.Second) (Examples.source Examples.spec_line)
    = Ok {[ "eth0"%string := Examples.eth0_sample 100 200 ]}.
Proof.
  intros Hpad Hname Hcl Hlen Hseps Hcs Hok line. split; [|vm_compute; reflexivity].
  assert (Hc : strings.Contains line ":" = true) by apply Contains_colon_after.
  assert (Hf : strings.Fields line =
               (name ++ ":")%string ::
               [r1; r2; r3; r4; r5; r6; r7; r8; t1; t2; t3; t4; t5; t6; t7; t8]).
  { subst line. rewrite Fields_line.
    - rewrite snd_zip by (rewrite Hlen; reflexivity). reflexivity.
    - exact Hpad.
    - apply is_token_colon, Hname.
    - eapply Forall_impl; [apply (Forall_zip_pairs _ _ _ _ Hseps Hcs)|].
      intros [sep c] [[Hb Hne] Ht]. auto. }
  apply filtered_out_allowed in Hok.
  unfold scan_turn. rewrite Hc, Hf. cbn [negb lookup list_lookup mbind option_bind].
  rewrite (Trim_name _ Hname Hcl), Hok. reflexivity.
Qed.

Lemma fields_map_positionally_witness :
  let args := Examples.args_every time.Second in
  let seps := replicate 16 " "%string in
  strings.is_blank "" /\
  strings.is_token "eth0" /\ strings.colonless "eth0" /\
  length seps = 16%nat /\
  Forall (fun sep => strings.is_blank sep /\ sep <> EmptyString) seps /\
  Forall strings.is_token
    ["100"; "2"; "0"; "0"; "0"; "0"; "0"; "0"; "200"; "3"; "0"; "0"; "0"; "0"; "0"; "0"]%string /\
  allowed args "eth0" /\
  scan_turn mto.Int64 args Examples.spec_line ∅
    = Some {[ "eth0"%string := Examples.eth0_sample 100 200 ]}.
Proof.
  intros args seps.
  assert (Hpad : strings.is_blank "") by constructor.
  assert (Htok : forall s, s <> EmptyString ->
            forallb (fun c => negb (strings.asciiSpace c) && (N_of_ascii c <? 128)%N)
                    (String.list_ascii_of_string s) = true ->
            strings.is_token s).
  { intros s Hne Hall. split; [exact Hne|]. apply Forall_forall. intros c Hin.
    apply list_elem_of_In in Hin.
    apply (proj1 (forallb_forall _ _) Hall) in Hin.
    apply andb_prop in Hin as [Hsp Hlt].
    apply negb_true_iff in Hsp. apply N.ltb_lt in Hlt. auto. }
  assert (Hname : strings.is_token "eth0") by (apply Htok; [discriminate | reflexivity]).
  assert (Hcl : strings.colonless "eth0") by (repeat constructor; discriminate).
  assert (Hlen : length seps = 16%nat) by reflexivity.
  assert (Hseps : Forall (fun sep => strings.is_blank sep /\ sep <> EmptyString) seps).
  { repeat constructor; discriminate. }
  assert (Hcs : Forall strings.is_token
            ["100"; "2"; "0"; "0"; "0"; "0"; "0"; "0";
             "200"; "3"; "0"; "0"; "0"; "0"; "0"; "0"]%string).
  { repeat (constructor; [apply Htok; [discriminate | reflexivity]|]). constructor. }
  assert (Hok : allowed args "eth0") by exact I.
  repeat (split; [assumption|]).
  exact (proj1 (fields_map_positionally mto.Int64 args ∅ "" "eth0" seps
                  _ _ _ _ _ _ _ _ _ _ _ _ _ _ _ _ Hpad Hname Hcl Hlen Hseps Hcs Hok)).
Defined.

(** C6, as the code has it.  After a successful read the keys of the
    map are exactly the names of the lines that hold a colon and pass the
    filter: every name when there is no list of interfaces (a nil slice),
    the names in the list when there is one, be it empty. *)
Theorem snapshot_holds_allowed_names
    (toInt64 : string -> Z) (args : netDevArgs.t) (fs : filesystem)
    (items : gmap string tsNetDev) :
  readNetDev toInt64 args fs = Ok items ->
  exists data lines,
    fs (netDevArgs.Path args) = File data None /\
    Scanner data None = (lines, None) /\
    forall name,
      name ∈ dom items <->
      exists line,
        line ∈ lines /\
        strings.Contains line ":" = true /\
        ifname_of line = Some name /\
        match netDevArgs.Interfaces args with
        | None => True
        | Some l => name ∈ l
        end.
Proof.
  intros Hr. apply readNetDev_Ok in Hr as (data & lines & Hfs & Hsc & Hloop).
  exists data, lines. split; [assumption|]. split; [assumption|].
  intros name. rewrite (scan_loop_dom _ _ _ _ _ Hloop), dom_empty_L, (left_id_L ∅ (∪)).
  rewrite elem_of_list_to_set, list_elem_of_omap.
  split; intros (line & Hin & Hk); exists line; (split; [assumption|]).
  - apply kept_name_Some in Hk. exact Hk.
  - apply kept_name_Some. exact Hk.
Qed.

Lemma snapshot_holds_allowed_names_witness :
  let args := Examples.args_listing (Some ["eth1"%string]) in
  let fs := Examples.source (Examples.header ++ Examples.eth0_line "3000" "700"
                                             ++ Examples.eth1_line "10" "20")%string in
  let items : gmap string tsNetDev := {[ "eth1"%string := Examples.eth1_sample 10 20 ]} in
  readNetDev mto.Int64 args fs = Ok items /\
  exists data lines,
    fs (netDevArgs.Path args) = File data None /\
    Scanner data None = (lines, None) /\
    ("eth1"%string ∈ dom items <->
     exists line,
       line ∈ lines /\ strings.Contains line ":" = true /\
       ifname_of line = Some "eth1"%string /\ "eth1"%string ∈ ["eth1"%string]).
Proof.
  intros args fs items.
  assert (Hr : readNetDev mto.Int64 args fs = Ok items) by (vm_compute; reflexivity).
  split; [exact Hr|].
  destruct (snapshot_holds_allowed_names mto.Int64 args fs items Hr)
    as (data & lines & Hfs & Hsc & Hnames).
  exists data, lines. split; [exact Hfs|]. split; [exact Hsc|]. exact (Hnames "eth1"%string).
Defined.

(** C6, as the specification has it, fails for a list of interfaces that
    is empty but not nil: the filter then lets no name pass and the map is
    empty, where the same source read without a list gives [eth0]. *)
Lemma empty_allow_list_counterexample :
  let fs := Examples.source (Examples.header ++ Examples.eth0_line "3000" "700")%string in
  readNetDev mto.Int64 (Examples.args_listing (Some [])) fs = Ok ∅ /\
  readNetDev mto.Int64 (Examples.args_listing None) fs
    = Ok {[ "eth0"%string := Examples.eth0_sample 3000 700 ]}.
Proof.
  cbv zeta. split; vm_compute; reflexivity.
Qed.

(** C7 fails on the code: a line with a colon and fewer than sixteen
    counters makes [fields[count()]] panic with an index out of range.
    The read does not return, the tick panics with it, and the goroutine
    ends in its [recover]. *)
Theorem short_line_panics (toInt64 : string -> Z) :
  let args := Examples.args_every time.Second in
  let fs := Examples.source Examples.short_line in
  strings.Contains Examples.short_line ":" = true /\
  strings.Fields Examples.short_line = ["eth0:"; "1"; "2"]%string /\
  readNetDev toInt64 args fs = Panic /\
  (forall st, tick toInt64 args st fs = Panicked) /\
  (forall st ch,
     tick_ready ch = true ->
     step toInt64 args (Inner st, ch) [panic_report] (Recovered, ch)).
Proof.
  intros args fs.
  assert (Hr : readNetDev toInt64 args fs = Panic) by reflexivity.
  split; [reflexivity|]. split; [reflexivity|]. split; [exact Hr|].
  assert (Ht : forall st, tick toInt64 args st fs = Panicked)
    by (intros st; apply tick_Panic, Hr).
  split; [exact Ht|].
  intros st ch Hready. eapply step_tick_panic; [exact Hready | apply Ht].
Qed.

(** C8.  A line without the byte [:] leaves the map as it is, so that
    the pass over all lines is the pass over those that hold one; and
    after a successful read every key of the map is the name of a line
    that holds one. *)
Theorem header_lines_are_skipped (toInt64 : string -> Z) (args : netDevArgs.t) :
  (forall line items,
     ~ ":"%char ∈ String.list_ascii_of_string line ->
     scan_turn toInt64 args line items = Some items) /\
  (forall lines items,
     scan_loop toInt64 args lines items =
     scan_loop toInt64 args
       (filter (fun l => ":"%char ∈ String.list_ascii_of_string l) lines) items) /\
  (forall fs items,
     readNetDev toInt64 args fs = Ok items ->
     exists data lines,
       fs (netDevArgs.Path args) = File data None /\
       Scanner data None = (lines, None) /\
       forall name,
         name ∈ dom items ->
         exists line,
           line ∈ lines /\
           ":"%char ∈ String.list_ascii_of_string line /\
           ifname_of line = Some name).
Proof.
  split; [|split].
  - intros line items Hno. apply scan_turn_header.
    destruct (strings.Contains line ":") eqn:Hc; [|reflexivity].
    apply Contains_colon in Hc. contradiction.
  - intros lines items. rewrite scan_loop_without_headers. f_equal.
    apply list_filter_iff. intros l. apply Contains_colon.
  - intros fs items Hr. apply readNetDev_Ok in Hr as (data & lines & Hfs & Hsc & Hloop).
    exists data, lines. split; [assumption|]. split; [assumption|].
    intros name. rewrite (scan_loop_dom _ _ _ _ _ Hloop), dom_empty_L, (left_id_L ∅ (∪)).
    rewrite elem_of_list_to_set, list_elem_of_omap.
    intros (line & Hin & Hk). exists line. apply kept_name_Some in Hk as (Hc & Hn & _).
    apply Contains_colon in Hc. auto.
Qed.

Lemma header_lines_are_skipped_witness :
  let args := Examples.args_every time.Second in
  let line := " face |bytes    packets errs drop fifo frame"%string in
  ~ ":"%char ∈ String.list_ascii_of_string line /\
  scan_turn mto.Int64 args line ∅ = Some ∅.
Proof.
  intros args line.
  assert (Hno : ~ ":"%char ∈ String.list_ascii_of_string line).
  { rewrite list_elem_of_In. cbn. intros H.
    repeat (destruct H as [H | H]; [discriminate H|]). exact H. }
  split; [exact Hno|].
  exact (proj1 (header_lines_are_skipped mto.Int64 args) line ∅ Hno).
Defined.

(** ** Runs of ticks *)

Section Runs.

Variable toInt64 : string -> Z.
Variable args : netDevArgs.t.

(** A tick that does not panic read the source and stores its totals,
    or failed to read it and keeps the state. *)
Lemma tick_Next (st st' : loop_state) (fs : filesystem) (effs : list effect) :
  tick toInt64 args st fs = Next st' effs ->
  (exists stats, readNetDev toInt64 args fs = Ok stats /\ st' = stored stats) \/
  (exists e, readNetDev toInt64 args fs = Err e /\ st' = st /\ effs = [LogError e]).
Proof.
  intros Ht. destruct (readNetDev toInt64 args fs) as [stats | e |] eqn:Hr.
  - left. exists stats. split; [reflexivity|].
    destruct (firstIteration st) eqn:Hf.
    + rewrite (tick_first _ _ _ _ _ Hr Hf) in Ht. congruence.
    + rewrite (tick_later _ _ _ _ _ Hr Hf) in Ht. cbv zeta in Ht.
      repeat match type of Ht with
             | match ?q with _ => _ end = _ => destruct q; try discriminate
             end.
      congruence.
  - right. exists e. rewrite (tick_Err _ _ _ _ _ Hr) in Ht.
    injection Ht as <- <-. auto.
  - rewrite (tick_Panic _ _ _ _ Hr) in Ht. discriminate.
Qed.

Lemma ticks_cons (st : loop_state) (fs : filesystem) (rest : list filesystem)
    (st' : loop_state) (effs : list effect) :
  tick toInt64 args st fs = Next st' effs ->
  ticks toInt64 args st (fs :: rest) =
    (effs :: fst (ticks toInt64 args st' rest), snd (ticks toInt64 args st' rest)).
Proof.
  intros Ht. cbn [ticks]. rewrite Ht.
  destruct (ticks toInt64 args st' rest). reflexivity.
Qed.

(** Failed reads before the first successful one only reach the log;
    the first successful read stores the totals in silence. *)
Lemma ticks_bootstrap (st : loop_state) (pre : list filesystem) (fs : filesystem)
    (stats : gmap string tsNetDev) (rest : list filesystem) :
  firstIteration st = true ->
  Forall (fun g => exists e, readNetDev toInt64 args g = Err e) pre ->
  readNetDev toInt64 args fs = Ok stats ->
  exists logs,
    length logs = length pre /\
    Forall (fun effs => exists e, effs = [LogError e]) logs /\
    ticks toInt64 args st (pre ++ fs :: rest) =
      (logs ++ [] :: fst (ticks toInt64 args (stored stats) rest),
       snd (ticks toInt64 args (stored stats) rest)).
Proof.
  intros Hf Hpre Hr. induction Hpre as [|g pre [e He] Hpre IH].
  - exists []. split; [reflexivity|]. split; [constructor|].
    cbn [app]. apply ticks_cons. apply tick_first; assumption.
  - destruct IH as (logs & Hlen & Hlogs & Hticks).
    exists ([LogError e] :: logs). split; [cbn; congruence|].
    split; [constructor; eauto|].
    cbn [app]. rewrite (ticks_cons st g _ st [LogError e]) by (apply tick_Err; assumption).
    rewrite Hticks. reflexivity.
Qed.

(** A tick that calls the callback read the source, and either the
    run started after a successful read or an earlier tick of the run
    read the source. *)
Lemma ticks_Callback (sources : list filesystem) (st : loop_state) (i : nat)
    (effs : list effect) (data : TsCallData.t) :
  fst (ticks toInt64 args st sources) !! i = Some effs ->
  Callback data ∈ effs ->
  (exists fs stats, sources !! i = Some fs /\ readNetDev toInt64 args fs = Ok stats) /\
  (firstIteration st = false \/
   exists j fs' stats',
     (j < i)%nat /\ sources !! j = Some fs' /\ readNetDev toInt64 args fs' = Ok stats').
Proof.
  revert st i. induction sources as [|fs rest IH]; intros st i Hi Hin.
  - cbn in Hi. discriminate.
  - destruct (tick toInt64 args st fs) as [st1 effs1|] eqn:Ht.
    2:{ cbn [ticks] in Hi. rewrite Ht in Hi. cbn in Hi. discriminate. }
    rewrite (ticks_cons _ _ _ _ _ Ht) in Hi. cbn [fst] in Hi.
    destruct i as [|i].
    + injection Hi as ->.
      destruct (tick_Callback _ _ _ _ _ _ _ Ht Hin) as (stats & Hr & Hf & _).
      split; [exists fs, stats; auto | left; assumption].
    + cbn in Hi. destruct (IH st1 i Hi Hin) as [Hat Hbefore]. split; [exact Hat|].
      destruct (tick_Next _ _ _ _ Ht) as [(stats & Hr & _) | (e & _ & -> & _)].
      * right. exists 0%nat, fs, stats. split; [lia | auto].
      * destruct Hbefore as [Hf | (j & fs' & stats' & Hj & Hfs' & Hr')]; [left; assumption|].
        right. exists (S j), fs', stats'. split; [lia | auto].
Qed.

End Runs.

(** C3.  In a run of [calculate], the first tick whose read succeeds
    stores the summed totals of its snapshot as the baseline, that is the
    sums of the receive and of the transmit bytes over the entries of the
    snapshot, as int64 values, and does not call the callback (the failed
    reads before it only reach the log); the run goes on from that
    baseline.  And a tick that calls the callback is a tick whose read
    succeeds, with a tick before it whose read succeeded. *)
Theorem first_successful_tick_is_silent (toInt64 : string -> Z) (args : netDevArgs.t) :
  (0 < netDevArgs.Interval args ->
   forall pre fs stats rest,
     Forall (fun g => exists e, readNetDev toInt64 args g = Err e) pre ->
     readNetDev toInt64 args fs = Ok stats ->
     let baseline :=
       {| lastRx := Int64.wrap (column_sum (fun v => Bytes (Receive v)) stats);
          lastTx := Int64.wrap (column_sum (fun v => Bytes (Transmit v)) stats);
          firstIteration := false |} in
     exists logs,
       length logs = length pre /\
       Forall (fun effs => exists e, effs = [LogError e]) logs /\
       calculate toInt64 args (pre ++ fs :: rest) =
         (logs ++ [] :: fst (ticks toInt64 args baseline rest),
          snd (ticks toInt64 args baseline rest))) /\
  (forall sources i effs data,
     fst (calculate toInt64 args sources) !! i = Some effs ->
     Callback data ∈ effs ->
     (exists fs stats, sources !! i = Some fs /\ readNetDev toInt64 args fs = Ok stats) /\
     (exists j fs' stats',
        (j < i)%nat /\ sources !! j = Some fs' /\ readNetDev toInt64 args fs' = Ok stats')).
Proof.
  split.
  - intros Hd pre fs stats rest Hpre Hr baseline. unfold calculate.
    destruct (Z.leb_spec (netDevArgs.Interval args) 0); [lia|].
    assert (Hsum : stored stats = baseline).
    { unfold stored, baseline. rewrite totals_sum. reflexivity. }
    rewrite <- Hsum.
    apply ticks_bootstrap; [reflexivity | assumption | assumption].
  - intros sources i effs data Hi Hin. unfold calculate in Hi.
    destruct (Z.leb_spec (netDevArgs.Interval args) 0); [cbn in Hi; discriminate|].
    destruct (ticks_Callback _ _ _ _ _ _ _ Hi Hin) as [Hat [Hf | Hbefore]];
      [discriminate Hf | auto].
Qed.

Lemma first_successful_tick_is_silent_witness :
  let args := Examples.args_every time.Second in
  let bad : filesystem := fun _ => NoFile "open /proc/net/dev: permission denied" in
  let fs := Examples.source (Examples.header ++ Examples.eth0_line "3000" "700"
                                             ++ Examples.eth1_line "10" "20")%string in
  let stats : gmap string tsNetDev :=
    {[ "eth0"%string := Examples.eth0_sample 3000 700;
       "eth1"%string := Examples.eth1_sample 10 20 ]} in
  0 < netDevArgs.Interval args /\
  Forall (fun g => exists e, readNetDev mto.Int64 args g = Err e) [bad] /\
  readNetDev mto.Int64 args fs = Ok stats /\
  exists logs,
    length logs = 1%nat /\
    calculate mto.Int64 args [bad; fs] =
      (logs ++ [[]],
       Waiting {| lastRx := 3010; lastTx := 720; firstIteration := false |}).
Proof.
  intros args bad fs stats.
  assert (Hd : 0 < netDevArgs.Interval args) by reflexivity.
  assert (Hbad : Forall (fun g => exists e, readNetDev mto.Int64 args g = Err e) [bad]).
  { constructor; [|constructor]. eexists. reflexivity. }
  assert (Hr : readNetDev mto.Int64 args fs = Ok stats) by (vm_compute; reflexivity).
  assert (Hrx : Int64.wrap (column_sum (fun v => Bytes (Receive v)) stats) = 3010)
    by (vm_compute; reflexivity).
  assert (Htx : Int64.wrap (column_sum (fun v => Bytes (Transmit v)) stats) = 720)
    by (vm_compute; reflexivity).
  split; [exact Hd|]. split; [exact Hbad|]. split; [exact Hr|].
  destruct (proj1 (first_successful_tick_is_silent mto.Int64 args) Hd [bad] fs stats [] Hbad Hr)
    as (logs & Hlen & _ & Hrun).
  cbn [ticks fst snd] in Hrun. rewrite Hrx, Htx in Hrun.
  exists logs. split; [exact Hlen | exact Hrun].
Defined.

(** ** Cancellation *)

Section Cancellation.

Variable toInt64 : string -> Z.
Variable args : netDevArgs.t.

(** A closed channel stays closed. *)
Lemma step_keeps_done (c c' : config) (effs : list effect) :
  step toInt64 args c effs c' -> done (snd c) = true -> done (snd c') = true.
Proof. intros Hstep. destruct Hstep; cbn; auto; congruence. Qed.

Lemma outside_keeps_done (c c' : config) :
  outside c c' -> done (snd c) = true -> done (snd c') = true.
Proof. intros Hout. destruct Hout; cbn; auto. Qed.

(** Only the tick branch of [calculate] calls the callback. *)
Lemma step_Callback (g : goroutine) (ch : channels) (effs : list effect)
    (c' : config) (data : TsCallData.t) :
  step toInt64 args (g, ch) effs c' ->
  Callback data ∈ effs ->
  tick_ready ch = true /\ exists st, g = Inner st.
Proof.
  intros Hstep Hin. inversion Hstep; subst;
    try (apply elem_of_nil in Hin; contradiction);
    try (apply list_elem_of_singleton in Hin; discriminate).
  split; [assumption | eauto].
Qed.

(** With [done] closed and no tick waiting, the goroutine can only
    leave. *)
Lemma step_cancelled_idle (g : goroutine) (ch : channels) (effs : list effect)
    (c' : config) :
  done ch = true -> tick_ready ch = false ->
  step toInt64 args (g, ch) effs c' ->
  effs = [] /\
  ((exists st, g = Inner st) /\ c' = (Outer, ch) \/ g = Outer /\ c' = (Exited, ch)).
Proof.
  intros Hdone Hidle Hstep. inversion Hstep; subst; try congruence.
  - split; [reflexivity|]. right. auto.
  - split; [reflexivity|]. left. eauto.
Qed.

Lemma step_finished (g : goroutine) (ch : channels) (effs : list effect) (c' : config) :
  g = Exited \/ g = Recovered -> ~ step toInt64 args (g, ch) effs c'.
Proof. intros [-> | ->] Hstep; inversion Hstep. Qed.

(** Once the goroutine has returned, no execution does anything. *)
Lemma run_finished (c c' : config) (effs : list effect) :
  run toInt64 args c effs c' ->
  fst c = Exited \/ fst c = Recovered ->
  effs = [] /\ fst c' = fst c.
Proof.
  intros Hrun. induction Hrun as [c | c effs c1 effs' c2 Hstep Hrun IH | c c1 effs c2 Hout Hrun IH];
    intros Hfin.
  - auto.
  - destruct c as [g ch]. exfalso. eapply step_finished; eauto.
  - assert (Hsame : fst c1 = fst c).
    { destruct Hout; cbn in *; [reflexivity|]. destruct Hfin; discriminate. }
    rewrite <- Hsame in *. apply IH, Hfin.
Qed.

End Cancellation.

(** C9, as the code has it.  Once [done] is closed it stays closed, and
    the goroutine can leave at its next [select] without calling the
    callback: from the [select] of [calculate] it returns to the one of
    [start], and from there it exits, after which nothing is emitted.
    With no tick waiting at the [select], leaving is its only move.  A
    step after cancellation calls the callback only from the [select] of
    [calculate] with a tick waiting in the channel, where the [select]
    may take either branch. *)
Theorem cancelled_loop_leaves
    (toInt64 : string -> Z) (args : netDevArgs.t) (g : goroutine) (ch : channels) :
  done ch = true ->
  (forall effs c', step toInt64 args (g, ch) effs c' -> done (snd c') = true) /\
  (forall c', outside (g, ch) c' -> done (snd c') = true) /\
  (forall st, g = Inner st ->
     step toInt64 args (g, ch) [] (Outer, ch) /\
     step toInt64 args (Outer, ch) [] (Exited, ch) /\
     run toInt64 args (g, ch) [] (Exited, ch)) /\
  (forall effs c' data,
     step toInt64 args (g, ch) effs c' -> Callback data ∈ effs ->
     tick_ready ch = true /\ exists st, g = Inner st) /\
  (tick_ready ch = false ->
   forall effs c',
     step toInt64 args (g, ch) effs c' ->
     effs = [] /\
     ((exists st, g = Inner st) /\ c' = (Outer, ch) \/ g = Outer /\ c' = (Exited, ch))) /\
  (forall effs c', run toInt64 args (Exited, ch) effs c' -> effs = [] /\ fst c' = Exited).
Proof.
  intros Hdone.
  split; [intros effs c' Hstep; apply (step_keeps_done _ _ _ _ _ Hstep), Hdone|].
  split; [intros c' Hout; apply (outside_keeps_done _ _ Hout), Hdone|].
  split.
  { intros st ->.
    assert (Hret : step toInt64 args (Inner st, ch) [] (Outer, ch)) by apply step_done, Hdone.
    assert (Hexit : step toInt64 args (Outer, ch) [] (Exited, ch))
      by apply step_start_done, Hdone.
    split; [exact Hret|]. split; [exact Hexit|].
    apply (run_step _ _ _ [] (Outer, ch) [] _ Hret).
    apply (run_step _ _ _ [] (Exited, ch) [] _ Hexit). apply run_here. }
  split; [intros effs c' data Hstep Hin; eapply step_Callback; eassumption|].
  split; [intros Hidle effs c' Hstep; eapply step_cancelled_idle; eassumption|].
  intros effs c' Hrun.
  apply (run_finished _ _ _ _ _ Hrun). left. reflexivity.
Qed.

Lemma cancelled_loop_leaves_witness :
  let args := Examples.args_every time.Second in
  let ch := {| done := true; tick_ready := false |} in
  let st := Examples.running 1000 0 in
  done ch = true /\ run mto.Int64 args (Inner st, ch) [] (Exited, ch).
Proof.
  intros args ch st. split; [reflexivity|].
  destruct (cancelled_loop_leaves mto.Int64 args (Inner st) ch eq_refl)
    as (_ & _ & Hleave & _).
  exact (proj2 (proj2 (Hleave st eq_refl))).
Defined.

(** C9, as the specification has it, fails: with one tick behind it, the
    loop can find [done] closed and a tick waiting at its [select], and
    the tick branch then calls the callback after the cancellation. *)
Lemma cancelled_loop_counterexample :
  let args := Examples.args_every time.Second in
  let fs0 := Examples.source (Examples.header ++ Examples.eth0_line "1000" "0")%string in
  let fs1 := Examples.source (Examples.header ++ Examples.eth0_line "3000" "0")%string in
  let cancelled := {| done := true; tick_ready := true |} in
  let data :=
    {| TsCallData.Name := "all"%string; TsCallData.BytesTx := 0;
       TsCallData.BytesRx := 2000; TsCallData.Interval := 1000000000;
       TsCallData.Interfaces := None |} in
  run mto.Int64 args (Outer, {| done := false; tick_ready := false |}) []
      (Inner (Examples.running 1000 0), cancelled) /\
  done cancelled = true /\
  step mto.Int64 args (Inner (Examples.running 1000 0), cancelled) [Callback data]
       (Inner (Examples.running 3000 0), {| done := true; tick_ready := false |}).
Proof.
  intros args fs0 fs1 cancelled data. split; [|split; [reflexivity|]].
  - apply (run_step _ _ _ [] (Inner initial, {| done := false; tick_ready := false |}) []);
      [apply step_start_default; reflexivity|].
    apply (run_outside _ _ _ (Inner initial, {| done := false; tick_ready := true |}));
      [apply (outside_fire initial {| done := false; tick_ready := false |})|].
    apply (run_step _ _ _ []
             (Inner (Examples.running 1000 0), {| done := false; tick_ready := false |}) []).
    { apply (step_tick _ _ initial {| done := false; tick_ready := true |} fs0);
        [reflexivity | vm_compute; reflexivity]. }
    apply (run_outside _ _ _
             (Inner (Examples.running 1000 0), {| done := false; tick_ready := true |}));
      [apply (outside_fire _ {| done := false; tick_ready := false |})|].
    apply (run_outside _ _ _ (Inner (Examples.running 1000 0), cancelled));
      [apply (outside_Close _ {| done := false; tick_ready := true |}); reflexivity|].
    apply run_here.
  - apply (step_tick _ _ (Examples.running 1000 0) cancelled fs1);
      [reflexivity | vm_compute; reflexivity].
Qed.

(** * More of the reader *)

Section ReaderEntries.

Variable toInt64 : string -> Z.
Variable args : netDevArgs.t.

Lemma iface_of_well_formed (fields : list string) (name : string)
    (v : tsNetDev) (c : nat) :
  iface_of toInt64 fields name (mfunc.NewCounter 1) = Some (v, c) ->
  well_formed_entry name v.
Proof.
  destruct (le_lt_dec 17 (length fields)) as [Hlong | Hshort].
  - do 17 (destruct fields as [|? fields]; [cbn in Hlong; lia|]).
    intros H. injection H as <- _. repeat split.
  - rewrite iface_of_short by assumption. discriminate.
Qed.

(** What a turn that enters a line puts in the map. *)
Lemma scan_turn_kept_entry (line name : string) (items items' : gmap string tsNetDev) :
  kept_name args line = Some name ->
  scan_turn toInt64 args line items = Some items' ->
  exists v, iface_at toInt64 line name = Some v /\ items' = <[name := v]> items.
Proof.
  intros Hk. pose proof Hk as Hk'.
  apply kept_name_Some in Hk' as (Hc & Hn & Hok).
  apply filtered_out_allowed in Hok.
  rewrite scan_turn_ifname, Hc, Hn. cbn [negb mbind option_bind]. rewrite Hok.
  unfold iface_at.
  destruct (iface_of toInt64 (strings.Fields line) name (mfunc.NewCounter 1))
    as [[v c]|]; cbn; [|discriminate].
  intros [= <-]. exists v. auto.
Qed.

Lemma scan_loop_app (l1 l2 : list string) (items : gmap string tsNetDev) :
  scan_loop toInt64 args (l1 ++ l2) items =
  scan_loop toInt64 args l1 items ≫= scan_loop toInt64 args l2.
Proof.
  revert items. induction l1 as [|line l1 IH]; intros items; [reflexivity|].
  cbn [app scan_loop]. destruct (scan_turn toInt64 args line items); [apply IH | reflexivity].
Qed.

(** The lines that are not entered under [name] leave its entry alone. *)
Lemma scan_loop_lookup_other (lines : list string) (name : string)
    (items items' : gmap string tsNetDev) :
  Forall (fun line => kept_name args line <> Some name) lines ->
  scan_loop toInt64 args lines items = Some items' ->
  items' !! name = items !! name.
Proof.
  intros Hall. revert items.
  induction Hall as [|line rest Hline Hall IH]; intros items; cbn [scan_loop].
  - intros [= <-]. reflexivity.
  - destruct (scan_turn toInt64 args line items) as [items1|] eqn:Hturn; [|discriminate].
    intros Hloop. rewrite (IH _ Hloop). apply scan_turn_Some in Hturn.
    destruct (kept_name args line) as [n|].
    + destruct Hturn as [v ->]. apply lookup_insert_ne. congruence.
    + subst items1. reflexivity.
Qed.

(** Every entry after the loop was there before it or is what one of
    the lines gives under its name. *)
Lemma scan_loop_entries (lines : list string) (items items' : gmap string tsNetDev)
    (name : string) (v : tsNetDev) :
  scan_loop toInt64 args lines items = Some items' ->
  items' !! name = Some v ->
  items !! name = Some v \/
  exists line, line ∈ lines /\ kept_name args line = Some name /\
               iface_at toInt64 line name = Some v.
Proof.
  revert items. induction lines as [|line rest IH]; intros items; cbn [scan_loop].
  - intros [= <-] Hv. left. exact Hv.
  - destruct (scan_turn toInt64 args line items) as [items1|] eqn:Hturn; [|discriminate].
    intros Hloop Hv. destruct (IH _ Hloop Hv) as [Hin | (l & Hl & Hk & Hat)].
    + destruct (kept_name args line) as [n|] eqn:Hk.
      * destruct (scan_turn_kept_entry _ _ _ _ Hk Hturn) as (w & Hw & ->).
        destruct (decide (n = name)) as [-> | Hne].
        -- rewrite lookup_insert_eq in Hin. injection Hin as ->.
           right. exists line. split; [apply elem_of_cons; auto | auto].
        -- rewrite lookup_insert_ne in Hin by assumption. left. exact Hin.
      * apply scan_turn_Some in Hturn. rewrite Hk in Hturn. subst items1.
        left. exact Hin.
    + right. exists l. split; [apply elem_of_cons; auto | auto].
Qed.

End ReaderEntries.

(** X1.  Every entry of a snapshot is what one line of the source gives
    alone: a line with a colon that passes the filter, whose name is the
    key.  The entry bears its key as its name, and the columns the reader
    does not fill (receive colls and carrier, transmit frame and
    multicast) are zero. *)
Theorem entries_come_from_lines
    (toInt64 : string -> Z) (args : netDevArgs.t) (fs : filesystem)
    (items : gmap string tsNetDev) (name : string) (v : tsNetDev) :
  readNetDev toInt64 args fs = Ok items ->
  items !! name = Some v ->
  well_formed_entry name v /\
  exists data line,
    fs (netDevArgs.Path args) = File data None /\
    line ∈ fst (Scanner data None) /\
    kept_name args line = Some name /\
    iface_at toInt64 line name = Some v.
Proof.
  intros Hr Hv. apply readNetDev_Ok in Hr as (data & lines & Hfs & Hsc & Hloop).
  destruct (scan_loop_entries _ _ _ _ _ _ _ Hloop Hv) as [Hempty | (line & Hin & Hk & Hat)].
  { rewrite lookup_empty in Hempty. discriminate. }
  split.
  - unfold iface_at in Hat.
    destruct (iface_of toInt64 (strings.Fields line) name (mfunc.NewCounter 1))
      as [[w c]|] eqn:Hi; [|discriminate].
    injection Hat as <-. eapply iface_of_well_formed, Hi.
  - exists data, line. rewrite Hsc. auto.
Qed.

Lemma entries_come_from_lines_witness :
  let args := Examples.args_every time.Second in
  let fs := Examples.source Fixtures.twice in
  let items : gmap string tsNetDev :=
    {[ "eth0"%string := Examples.eth0_sample 3000 700;
       "eth1"%string := Examples.eth1_sample 10 20 ]} in
  readNetDev mto.Int64 args fs = Ok items /\
  items !! "eth1"%string = Some (Examples.eth1_sample 10 20) /\
  well_formed_entry "eth1" (Examples.eth1_sample 10 20).
Proof.
  intros args fs items.
  assert (Hr : readNetDev mto.Int64 args fs = Ok items) by (vm_compute; reflexivity).
  assert (Hv : items !! "eth1"%string = Some (Examples.eth1_sample 10 20))
    by (vm_compute; reflexivity).
  split; [exact Hr|]. split; [exact Hv|].
  exact (proj1 (entries_come_from_lines mto.Int64 args fs items _ _ Hr Hv)).
Defined.

(** X2.  When a name comes on several lines, the last of them makes the
    entry: a line that is entered, with no line after it entered under
    the same name, is what the snapshot holds for the name. *)
Theorem last_line_of_a_name_wins
    (toInt64 : string -> Z) (args : netDevArgs.t) (fs : filesystem)
    (items : gmap string tsNetDev) (data : string)
    (before after : list string) (line name : string) :
  readNetDev toInt64 args fs = Ok items ->
  fs (netDevArgs.Path args) = File data None ->
  fst (Scanner data None) = before ++ line :: after ->
  kept_name args line = Some name ->
  Forall (fun l => kept_name args l <> Some name) after ->
  exists v, iface_at toInt64 line name = Some v /\ items !! name = Some v.
Proof.
  intros Hr Hfs Hlines Hk Hafter.
  apply readNetDev_Ok in Hr as (data' & lines & Hfs' & Hsc & Hloop).
  rewrite Hfs in Hfs'. injection Hfs' as <-. rewrite Hsc in Hlines. cbn [fst] in Hlines.
  subst lines. rewrite scan_loop_app in Hloop.
  destruct (scan_loop toInt64 args before ∅) as [items0|]; [|discriminate].
  cbn [mbind option_bind scan_loop] in Hloop.
  destruct (scan_turn toInt64 args line items0) as [items1|] eqn:Hturn; [|discriminate].
  destruct (scan_turn_kept_entry _ _ _ _ _ _ Hk Hturn) as (v & Hv & ->).
  exists v. split; [exact Hv|].
  rewrite (scan_loop_lookup_other _ _ _ _ _ _ Hafter Hloop). apply lookup_insert_eq.
Qed.

Lemma last_line_of_a_name_wins_witness :
  let args := Examples.args_every time.Second in
  let fs := Examples.source Fixtures.twice in
  let line := "  eth0: 3000 2 0 0 0 0 0 0 700 3 0 0 0 0 0 0"%string in
  let before :=
    ["Inter-|   Receive                                                |  Transmit";
     " face |bytes    packets errs drop fifo frame compressed multicast|bytes    packets errs drop fifo colls carrier compressed";
     "  eth0: 1 2 0 0 0 0 0 0 2 3 0 0 0 0 0 0"]%string in
  let after := ["  eth1: 10 0 0 0 0 0 0 0 20 0 0 0 0 0 0 0"]%string in
  let items : gmap string tsNetDev :=
    {[ "eth0"%string := Examples.eth0_sample 3000 700;
       "eth1"%string := Examples.eth1_sample 10 20 ]} in
  readNetDev mto.Int64 args fs = Ok items /\
  fst (Scanner Fixtures.twice None) = before ++ line :: after /\
  kept_name args line = Some "eth0"%string /\
  Forall (fun l => kept_name args l <> Some "eth0"%string) after /\
  exists v, iface_at mto.Int64 line "eth0" = Some v /\ items !! "eth0"%string = Some v.
Proof.
  intros args fs line before after items.
  assert (Hr : readNetDev mto.Int64 args fs = Ok items) by (vm_compute; reflexivity).
  assert (Hl : fst (Scanner Fixtures.twice None) = before ++ line :: after)
    by (vm_compute; reflexivity).
  assert (Hk : kept_name args line = Some "eth0"%string) by (vm_compute; reflexivity).
  assert (Ha : Forall (fun l => kept_name args l <> Some "eth0"%string) after).
  { constructor; [vm_compute; discriminate | constructor]. }
  split; [exact Hr|]. split; [exact Hl|]. split; [exact Hk|]. split; [exact Ha|].
  exact (last_line_of_a_name_wins mto.Int64 args fs items Fixtures.twice
           before after line "eth0" Hr eq_refl Hl Hk Ha).
Defined.

Section ReaderPanics.

Variable toInt64 : string -> Z.
Variable args : netDevArgs.t.

Lemma scan_loop_None_iff (lines : list string) (items : gmap string tsNetDev) :
  scan_loop toInt64 args lines items = None <->
  Exists (fun line => is_Some (kept_name args line) /\
                      (length (strings.Fields line) < 17)%nat) lines.
Proof.
  split; [|apply scan_loop_short_line].
  revert items. induction lines as [|line rest IH]; intros items; cbn [scan_loop];
    [discriminate|].
  destruct (kept_name args line) as [name|] eqn:Hk.
  - destruct (le_lt_dec 17 (length (strings.Fields line))) as [Hlong | Hshort].
    + destruct (proj2 (scan_turn_kept toInt64 args line name items Hk) Hlong) as [v ->].
      intros Hloop. apply Exists_cons_tl, (IH _ Hloop).
    + intros _. apply Exists_cons_hd. rewrite Hk. split; [eexists; reflexivity | exact Hshort].
  - rewrite (scan_turn_dropped toInt64 args line items Hk).
    intros Hloop. apply Exists_cons_tl, (IH _ Hloop).
Qed.

End ReaderPanics.

(** X3.  The read panics exactly when the source opens and one of the
    lines the scanner yields is entered with fewer than seventeen
    fields; a read error of the source or a line that is too long does
    not come before it. *)
Theorem read_panics_iff_short_line
    (toInt64 : string -> Z) (args : netDevArgs.t) (fs : filesystem) :
  readNetDev toInt64 args fs = Panic <->
  exists data rderr,
    fs (netDevArgs.Path args) = File data rderr /\
    Exists (fun line => is_Some (kept_name args line) /\
                        (length (strings.Fields line) < 17)%nat)
           (fst (Scanner data rderr)).
Proof.
  unfold readNetDev. destruct (fs (netDevArgs.Path args)) as [e | data rderr].
  - split; [discriminate | intros (? & ? & [=] & _)].
  - destruct (Scanner data rderr) as [lines err] eqn:Hsc.
    pose proof (scan_loop_None_iff toInt64 args lines ∅) as Hiff.
    destruct (scan_loop toInt64 args lines ∅) as [items|].
    + split.
      * destruct err; discriminate.
      * intros (d & r & [= <- <-] & Hex). rewrite Hsc in Hex.
        apply Hiff in Hex. discriminate.
    + split; [|reflexivity]. intros _. exists data, rderr.
      rewrite Hsc. split; [reflexivity | apply Hiff; reflexivity].
Qed.

(** X4.  Fields after the seventeenth are not read: two lines with a
    colon whose first seventeen fields are the same make the same turn of
    the loop. *)
Theorem fields_after_the_seventeenth_are_ignored
    (toInt64 : string -> Z) (args : netDevArgs.t) (line line' : string)
    (items : gmap string tsNetDev) :
  strings.Contains line ":" = true ->
  strings.Contains line' ":" = true ->
  (17 <= length (strings.Fields line))%nat ->
  take 17 (strings.Fields line) = take 17 (strings.Fields line') ->
  scan_turn toInt64 args line items = scan_turn toInt64 args line' items.
Proof.
  intros Hc Hc' Hlen Htake.
  assert (Hlen' : (17 <= length (strings.Fields line'))%nat).
  { apply (f_equal length) in Htake. rewrite !length_take in Htake. lia. }
  unfold scan_turn. rewrite Hc, Hc'. cbn [negb].
  revert Hlen Hlen' Htake.
  generalize (strings.Fields line) (strings.Fields line'). intros f f' Hlen Hlen' Htake.
  do 17 (destruct f as [|? f]; [cbn in Hlen; lia|]).
  do 17 (destruct f' as [|? f']; [cbn in Hlen'; lia|]).
  cbn [take] in Htake. injection Htake as -> -> -> -> -> -> -> -> -> -> -> -> -> -> -> -> ->.
  reflexivity.
Qed.

Lemma fields_after_the_seventeenth_are_ignored_witness :
  let args := Examples.args_every time.Second in
  strings.Contains Fixtures.spec_line_more ":" = true /\
  strings.Contains Examples.spec_line ":" = true /\
  (17 <= length (strings.Fields Fixtures.spec_line_more))%nat /\
  take 17 (strings.Fields Fixtures.spec_line_more) = take 17 (strings.Fields Examples.spec_line) /\
  scan_turn mto.Int64 args Fixtures.spec_line_more ∅ =
  scan_turn mto.Int64 args Examples.spec_line ∅.
Proof.
  intros args.
  assert (H1 : strings.Contains Fixtures.spec_line_more ":" = true) by reflexivity.
  assert (H2 : strings.Contains Examples.spec_line ":" = true) by reflexivity.
  assert (H3 : (17 <= length (strings.Fields Fixtures.spec_line_more))%nat)
    by (vm_compute; lia).
  assert (H4 : take 17 (strings.Fields Fixtures.spec_line_more)
               = take 17 (strings.Fields Examples.spec_line)) by reflexivity.
  repeat (split; [assumption|]).
  exact (fields_after_the_seventeenth_are_ignored mto.Int64 args _ _ ∅ H1 H2 H3 H4).
Defined.

Lemma read_panics_iff_short_line_witness :
  let args := Examples.args_every time.Second in
  let fs := Examples.source Examples.short_line in
  readNetDev mto.Int64 args fs = Panic /\
  exists data rderr,
    fs (netDevArgs.Path args) = File data rderr /\
    Exists (fun line => is_Some (kept_name args line) /\
                        (length (strings.Fields line) < 17)%nat)
           (fst (Scanner data rderr)).
Proof.
  intros args fs.
  assert (Hr : readNetDev mto.Int64 args fs = Panic) by reflexivity.
  split; [exact Hr|].
  exact (proj1 (read_panics_iff_short_line mto.Int64 args fs) Hr).
Defined.

Section AllowList.

Variable toInt64 : string -> Z.
Variable args : netDevArgs.t.
Variable l : list string.

Hypothesis no_list : netDevArgs.Interfaces args = None.

Lemma scan_turn_entered (args0 : netDevArgs.t) (line name : string) (v : tsNetDev)
    (items : gmap string tsNetDev) :
  kept_name args0 line = Some name ->
  iface_at toInt64 line name = Some v ->
  scan_turn toInt64 args0 line items = Some (<[name := v]> items).
Proof.
  intros Hk Hv. apply kept_name_Some in Hk as (Hc & Hn & Hok).
  apply filtered_out_allowed in Hok.
  rewrite scan_turn_ifname, Hc, Hn. cbn [negb mbind option_bind]. rewrite Hok.
  unfold iface_at in Hv.
  destruct (iface_of toInt64 (strings.Fields line) name (mfunc.NewCounter 1))
    as [[w c]|]; [|discriminate].
  injection Hv as ->. reflexivity.
Qed.

Lemma kept_name_listed (line : string) :
  kept_name (with_interfaces args (Some l)) line =
    match kept_name args line with
    | Some name => if decide (name ∈ l) then Some name else None
    | None => None
    end.
Proof.
  unfold kept_name, filtered_out. cbn [with_interfaces netDevArgs.Interfaces].
  rewrite no_list.
  destruct (strings.Contains line ":"); [|reflexivity].
  destruct (ifname_of line) as [name|]; [|reflexivity]. cbn.
  destruct (decide (name ∈ l)) as [Hin | Hout].
  - apply slices_Contains_elem_of in Hin. rewrite Hin. reflexivity.
  - destruct (slices.Contains l name) eqn:Hc; [|reflexivity].
    apply slices_Contains_elem_of in Hc. contradiction.
Qed.

(** The pass with a list is the pass without it, kept to the names of
    the list. *)
Lemma scan_loop_listed (lines : list string) (items all : gmap string tsNetDev) :
  scan_loop toInt64 args lines items = Some all ->
  scan_loop toInt64 (with_interfaces args (Some l)) lines
            (filter (fun kv : string * tsNetDev => kv.1 ∈ l) items)
  = Some (filter (fun kv : string * tsNetDev => kv.1 ∈ l) all).
Proof.
  revert items. induction lines as [|line rest IH]; intros items; cbn [scan_loop].
  - intros [= <-]. reflexivity.
  - destruct (scan_turn toInt64 args line items) as [items1|] eqn:Hturn; [|discriminate].
    intros Hloop. pose proof (kept_name_listed line) as Hkl.
    destruct (kept_name args line) as [name|] eqn:Hk.
    + destruct (scan_turn_kept_entry _ _ _ _ _ _ Hk Hturn) as (v & Hv & ->).
      destruct (decide (name ∈ l)) as [Hin | Hout].
      * rewrite (scan_turn_entered _ _ _ _ _ Hkl Hv).
        rewrite <- (map_filter_insert_True (fun kv : string * tsNetDev => kv.1 ∈ l))
          by exact Hin.
        apply IH, Hloop.
      * rewrite (scan_turn_dropped toInt64 _ _ _ Hkl).
        rewrite <- (map_filter_insert_not (fun kv : string * tsNetDev => kv.1 ∈ l)
                      items name v) by (intros y; exact Hout).
        apply IH, Hloop.
    + apply scan_turn_Some in Hturn. rewrite Hk in Hturn. subst items1.
      rewrite (scan_turn_dropped toInt64 _ _ _ Hkl). apply IH, Hloop.
Qed.

End AllowList.

(** X5.  A list of interfaces only takes entries away: when the read
    without a list succeeds, the read of the same source with the list
    [l] succeeds too and gives the same snapshot kept to the names in
    [l], each entry as it was. *)
Theorem allow_list_restricts_the_snapshot
    (toInt64 : string -> Z) (args : netDevArgs.t) (l : list string)
    (fs : filesystem) (all : gmap string tsNetDev) :
  netDevArgs.Interfaces args = None ->
  readNetDev toInt64 args fs = Ok all ->
  readNetDev toInt64 (with_interfaces args (Some l)) fs
  = Ok (filter (fun kv : string * tsNetDev => kv.1 ∈ l) all).
Proof.
  intros Hnone Hr. apply readNetDev_Ok in Hr as (data & lines & Hfs & Hsc & Hloop).
  unfold readNetDev. cbn [with_interfaces netDevArgs.Path]. rewrite Hfs, Hsc.
  pose proof (scan_loop_listed toInt64 args l Hnone lines ∅ all Hloop) as Hl.
  rewrite map_filter_empty in Hl. rewrite Hl. reflexivity.
Qed.

Lemma allow_list_restricts_the_snapshot_witness :
  let args := Examples.args_every time.Second in
  let fs := Examples.source Fixtures.twice in
  let all : gmap string tsNetDev :=
    {[ "eth0"%string := Examples.eth0_sample 3000 700;
       "eth1"%string := Examples.eth1_sample 10 20 ]} in
  netDevArgs.Interfaces args = None /\
  readNetDev mto.Int64 args fs = Ok all /\
  readNetDev mto.Int64 (with_interfaces args (Some ["eth1"%string])) fs
  = Ok (filter (fun kv : string * tsNetDev => kv.1 ∈ ["eth1"%string]) all).
Proof.
  intros args fs all.
  assert (Hr : readNetDev mto.Int64 args fs = Ok all) by (vm_compute; reflexivity).
  split; [reflexivity|]. split; [exact Hr|].
  exact (allow_list_restricts_the_snapshot mto.Int64 args ["eth1"%string] fs all eq_refl Hr).
Defined.

Section LongLines.

Lemma split_lines_no_newline (data : string) :
  forallb (fun c => negb (Ascii.eqb c bufio.newline)) (String.list_ascii_of_string data) = true ->
  bufio.split_lines data = [data].
Proof.
  induction data as [|c d IH]; [reflexivity|].
  cbn [String.list_ascii_of_string forallb bufio.split_lines].
  intros H. apply andb_prop in H as [Hc Hd]. apply negb_true_iff in Hc.
  rewrite Hc, (IH Hd). reflexivity.
Qed.

Lemma Scanner_long_line (data : string) (rderr : option error) :
  forallb (fun c => negb (Ascii.eqb c bufio.newline)) (String.list_ascii_of_string data) = true ->
  bufio.MaxScanTokenSize <= Z.of_nat (String.length data) ->
  Scanner data rderr = ([], Some bufio.ErrTooLong).
Proof.
  intros Hnl Hlen. unfold Scanner. rewrite (split_lines_no_newline _ Hnl).
  assert (Hraw : bufio.raw_lines_of [data] = [data]).
  { destruct data; [|reflexivity]. cbn in Hlen. unfold bufio.MaxScanTokenSize in Hlen. lia. }
  rewrite Hraw. cbn [bufio.scan].
  destruct (Z.leb_spec bufio.MaxScanTokenSize (Z.of_nat (String.length data))); [reflexivity | lia].
Qed.

End LongLines.

(** X6.  A source that is one line of 65536 bytes or more without a
    newline cannot be read, whatever the line holds: the scanner stops
    with [bufio.ErrTooLong] before the loop sees the line, the read
    returns that error (also when the source has a read error of its
    own), and the tick reports it and leaves the state as it is. *)
Theorem long_line_fails_the_read
    (toInt64 : string -> Z) (args : netDevArgs.t) (fs : filesystem)
    (data : string) (rderr : option error) :
  fs (netDevArgs.Path args) = File data rderr ->
  forallb (fun c => negb (Ascii.eqb c bufio.newline)) (String.list_ascii_of_string data) = true ->
  bufio.MaxScanTokenSize <= Z.of_nat (String.length data) ->
  readNetDev toInt64 args fs = Err bufio.ErrTooLong /\
  forall st, tick toInt64 args st fs = Next st [LogError bufio.ErrTooLong].
Proof.
  intros Hfs Hnl Hlen.
  assert (Hr : readNetDev toInt64 args fs = Err bufio.ErrTooLong).
  { unfold readNetDev. rewrite Hfs, (Scanner_long_line _ _ Hnl Hlen). reflexivity. }
  split; [exact Hr|]. intros st. apply tick_Err, Hr.
Qed.

Lemma long_line_fails_the_read_witness :
  let args := Examples.args_every time.Second in
  let fs := Examples.source Fixtures.long_line in
  fs (netDevArgs.Path args) = File Fixtures.long_line None /\
  forallb (fun c => negb (Ascii.eqb c bufio.newline))
          (String.list_ascii_of_string Fixtures.long_line) = true /\
  bufio.MaxScanTokenSize <= Z.of_nat (String.length Fixtures.long_line) /\
  readNetDev mto.Int64 args fs = Err bufio.ErrTooLong.
Proof.
  intros args fs.
  assert (Hnl : forallb (fun c => negb (Ascii.eqb c bufio.newline))
                        (String.list_ascii_of_string Fixtures.long_line) = true)
    by (vm_compute; reflexivity).
  assert (Hlen : bufio.MaxScanTokenSize <= Z.of_nat (String.length Fixtures.long_line))
    by (vm_compute; discriminate).
  split; [reflexivity|]. split; [exact Hnl|]. split; [exact Hlen|].
  exact (proj1 (long_line_fails_the_read mto.Int64 args fs _ None eq_refl Hnl Hlen)).
Defined.

(** * More of the loop *)

Section MoreRuns.

Variable toInt64 : string -> Z.
Variable args : netDevArgs.t.

Lemma ticks_app (st : loop_state) (a b : list filesystem) :
  ticks toInt64 args st (a ++ b) =
    match snd (ticks toInt64 args st a) with
    | Waiting st1 =>
        (fst (ticks toInt64 args st a) ++ fst (ticks toInt64 args st1 b),
         snd (ticks toInt64 args st1 b))
    | Crashed => (fst (ticks toInt64 args st a), Crashed)
    end.
Proof.
  revert st. induction a as [|fs a IH]; intros st.
  - cbn. destruct (ticks toInt64 args st b). reflexivity.
  - cbn [app ticks]. destruct (tick toInt64 args st fs) as [st1 effs|]; [|reflexivity].
    rewrite IH. destruct (ticks toInt64 args st1 a) as [tr [st2|]]; cbn; reflexivity.
Qed.

(** Ticks whose reads return errors leave the run where it was. *)
Lemma ticks_failing (st : loop_state) (failing : list filesystem) :
  Forall (fun g => exists e, readNetDev toInt64 args g = Err e) failing ->
  exists logs,
    length logs = length failing /\
    Forall (fun effs => exists e, effs = [LogError e]) logs /\
    ticks toInt64 args st failing = (logs, Waiting st).
Proof.
  induction 1 as [|g failing [e He] Hrest IH].
  - exists []. split; [reflexivity|]. split; [constructor | reflexivity].
  - destruct IH as (logs & Hlen & Hlogs & Hticks).
    exists ([LogError e] :: logs). split; [cbn; congruence|].
    split; [constructor; eauto|].
    rewrite (ticks_cons toInt64 args st g failing st [LogError e])
      by (apply tick_Err; assumption).
    rewrite Hticks. reflexivity.
Qed.

End MoreRuns.

(** X7.  Reads that return errors are invisible to the rates: a run
    through any number of them reports each to the log, calls no
    callback, and goes on exactly as a run without them, from the same
    previous totals. *)
Theorem failed_reads_do_not_move_the_baseline
    (toInt64 : string -> Z) (args : netDevArgs.t) (st : loop_state)
    (failing rest : list filesystem) :
  Forall (fun g => exists e, readNetDev toInt64 args g = Err e) failing ->
  exists logs,
    length logs = length failing /\
    Forall (fun effs => exists e, effs = [LogError e]) logs /\
    ticks toInt64 args st (failing ++ rest) =
      (logs ++ fst (ticks toInt64 args st rest), snd (ticks toInt64 args st rest)).
Proof.
  intros Hfail. destruct (ticks_failing toInt64 args st failing Hfail)
    as (logs & Hlen & Hlogs & Hticks).
  exists logs. split; [exact Hlen|]. split; [exact Hlogs|].
  rewrite ticks_app, Hticks. reflexivity.
Qed.

Lemma failed_reads_do_not_move_the_baseline_witness :
  let args := Examples.args_every time.Second in
  let st := Examples.running 1000 500 in
  let fs := Examples.source (Examples.header ++ Examples.eth0_line "3000" "700")%string in
  Forall (fun g => exists e, readNetDev mto.Int64 args g = Err e)
         [Fixtures.unreadable; Fixtures.unreadable] /\
  exists logs,
    length logs = 2%nat /\
    ticks mto.Int64 args st [Fixtures.unreadable; Fixtures.unreadable; fs] =
      (logs ++ fst (ticks mto.Int64 args st [fs]), snd (ticks mto.Int64 args st [fs])).
Proof.
  intros args st fs.
  assert (Hf : Forall (fun g => exists e, readNetDev mto.Int64 args g = Err e)
                      [Fixtures.unreadable; Fixtures.unreadable]).
  { repeat constructor; eexists; reflexivity. }
  split; [exact Hf|].
  destruct (failed_reads_do_not_move_the_baseline mto.Int64 args st _ [fs] Hf)
    as (logs & Hlen & _ & Hrun).
  exists logs. split; [exact Hlen | exact Hrun].
Defined.

(** X8.  While the loop is waiting, its state is that of the last
    successful read: after a run that did not panic, the previous totals
    are the wrapped sums of the last snapshot read, whatever came before
    it and however many reads failed after it; they are int64 values,
    and [firstIteration] is false. *)
Theorem state_holds_the_last_successful_totals
    (toInt64 : string -> Z) (args : netDevArgs.t) (st st' : loop_state)
    (before after : list filesystem) (fs : filesystem)
    (stats : gmap string tsNetDev) (trace : list (list effect)) :
  ticks toInt64 args st (before ++ fs :: after) = (trace, Waiting st') ->
  readNetDev toInt64 args fs = Ok stats ->
  Forall (fun g => exists e, readNetDev toInt64 args g = Err e) after ->
  st' = stored stats /\
  lastRx st' = Int64.wrap (column_sum (fun v => Bytes (Receive v)) stats) /\
  lastTx st' = Int64.wrap (column_sum (fun v => Bytes (Transmit v)) stats) /\
  Int64.in_range (lastRx st') /\ Int64.in_range (lastTx st') /\
  firstIteration st' = false.
Proof.
  intros Hrun Hr Hafter.
  assert (Hst : st' = stored stats).
  { rewrite ticks_app in Hrun.
    destruct (ticks toInt64 args st before) as [tr [st1|]]; cbn [fst snd] in Hrun;
      [|discriminate].
    destruct (tick toInt64 args st1 fs) as [st2 effs|] eqn:Ht.
    2:{ cbn [ticks] in Hrun. rewrite Ht in Hrun. discriminate. }
    rewrite (ticks_cons _ _ _ _ _ _ _ Ht) in Hrun. cbn [fst snd] in Hrun.
    destruct (ticks_failing toInt64 args st2 after Hafter) as (logs & _ & _ & Hticks).
    rewrite Hticks in Hrun. cbn [fst snd] in Hrun. injection Hrun as _ <-.
    destruct (tick_Next _ _ _ _ _ _ Ht) as [(stats' & Hr' & ->) | (e & He & _)];
      congruence. }
  subst st'. split; [reflexivity|]. unfold stored. cbn [lastRx lastTx firstIteration].
  rewrite totals_sum. cbn [fst snd].
  repeat split; try apply wrap_range; apply wrap_range.
Qed.

Lemma state_holds_the_last_successful_totals_witness :
  let args := Examples.args_every time.Second in
  let fs := Examples.source (Examples.header ++ Examples.eth0_line "3000" "700")%string in
  let stats : gmap string tsNetDev := {[ "eth0"%string := Examples.eth0_sample 3000 700 ]} in
  ticks mto.Int64 args initial [Fixtures.unreadable; fs; Fixtures.unreadable]
  = ([[LogError "open /proc/net/dev: permission denied"]; [];
      [LogError "open /proc/net/dev: permission denied"]],
     Waiting (Examples.running 3000 700)) /\
  readNetDev mto.Int64 args fs = Ok stats /\
  Forall (fun g => exists e, readNetDev mto.Int64 args g = Err e) [Fixtures.unreadable] /\
  Examples.running 3000 700 = stored stats.
Proof.
  intros args fs stats.
  assert (Hrun : ticks mto.Int64 args initial ([Fixtures.unreadable] ++ fs :: [Fixtures.unreadable])
                 = ([[LogError "open /proc/net/dev: permission denied"]; [];
                     [LogError "open /proc/net/dev: permission denied"]],
                    Waiting (Examples.running 3000 700))) by (vm_compute; reflexivity).
  assert (Hr : readNetDev mto.Int64 args fs = Ok stats) by (vm_compute; reflexivity).
  assert (Hf : Forall (fun g => exists e, readNetDev mto.Int64 args g = Err e)
                      [Fixtures.unreadable]).
  { repeat constructor; eexists; reflexivity. }
  split; [exact Hrun|]. split; [exact Hr|]. split; [exact Hf|].
  exact (proj1 (state_holds_the_last_successful_totals mto.Int64 args initial _
                  [Fixtures.unreadable] [Fixtures.unreadable] fs stats _ Hrun Hr Hf)).
Defined.

Section Results.

Variable toInt64 : string -> Z.
Variable args : netDevArgs.t.

(** What the goroutine emits, a tick emitted. *)
Lemma step_effect_from_tick (c c' : config) (effs : list effect) (data : TsCallData.t) :
  step toInt64 args c effs c' ->
  Callback data ∈ effs ->
  exists st st' fs, tick toInt64 args st fs = Next st' effs.
Proof.
  intros Hstep Hin. inversion Hstep; subst;
    try (apply elem_of_nil in Hin; contradiction);
    try (apply list_elem_of_singleton in Hin; discriminate).
  eauto.
Qed.

Lemma run_Callback_from_tick (c c' : config) (effs : list effect) (data : TsCallData.t) :
  run toInt64 args c effs c' ->
  Callback data ∈ effs ->
  exists st st' fs effs0,
    tick toInt64 args st fs = Next st' effs0 /\ Callback data ∈ effs0.
Proof.
  intros Hrun. induction Hrun as [c | c effs c1 effs' c2 Hstep Hrun IH | c c1 effs c2 Hout Hrun IH];
    intros Hin.
  - apply elem_of_nil in Hin. contradiction.
  - apply elem_of_app in Hin as [Hin | Hin]; [|apply IH, Hin].
    destruct (step_effect_from_tick _ _ _ _ Hstep Hin) as (st & st' & fs & Ht).
    exists st, st', fs, effs. auto.
  - apply IH, Hin.
Qed.

Lemma tick_effects (st st' : loop_state) (fs : filesystem) (effs : list effect) :
  tick toInt64 args st fs = Next st' effs ->
  (length effs <= 1)%nat /\
  forall data,
    Callback data ∈ effs ->
    TsCallData.Name data = netDevArgs.Name args /\
    TsCallData.Interval data = netDevArgs.Interval args /\
    TsCallData.Interfaces data = netDevArgs.Interfaces args /\
    0 <= TsCallData.BytesRx data <= Int64.max_int /\
    0 <= TsCallData.BytesTx data <= Int64.max_int.
Proof.
  intros Ht.
  assert (Hclamp : forall z, 0 <= clamp (Int64.wrap z) <= Int64.max_int).
  { intros z. pose proof (wrap_range z) as [_ Hmax]. rewrite clamp_max.
    unfold Int64.max_int in *. lia. }
  destruct (readNetDev toInt64 args fs) as [stats | e |] eqn:Hr.
  - destruct (firstIteration st) eqn:Hf.
    + rewrite (tick_first _ _ _ _ _ Hr Hf) in Ht. injection Ht as <- <-.
      split; [cbn; lia|]. intros data Hin. apply elem_of_nil in Hin. contradiction.
    + rewrite (tick_later _ _ _ _ _ Hr Hf) in Ht. cbv zeta in Ht. unfold Int64.quo in Ht.
      destruct (Z.eqb_spec (time.SecondsInt64 (netDevArgs.Interval args)) 0);
        [discriminate|].
      injection Ht as <- <-. split; [cbn; lia|].
      intros data Hin. apply list_elem_of_singleton in Hin. injection Hin as ->.
      cbn. repeat split; apply Hclamp.
  - rewrite (tick_Err _ _ _ _ _ Hr) in Ht. injection Ht as <- <-.
    split; [cbn; lia|]. intros data Hin. apply list_elem_of_singleton in Hin. discriminate.
  - rewrite (tick_Panic _ _ _ _ Hr) in Ht. discriminate.
Qed.

End Results.

(** X9.  In every execution of the goroutine, a call of the callback
    comes from a tick of [calculate], and the result it hands over bears
    the name, the interval and the list of interfaces of the
    configuration, with two rates between 0 and 2^63 - 1. *)
Theorem results_carry_the_configuration
    (toInt64 : string -> Z) (args : netDevArgs.t) (c c' : config)
    (effs : list effect) (data : TsCallData.t) :
  run toInt64 args c effs c' ->
  Callback data ∈ effs ->
  TsCallData.Name data = netDevArgs.Name args /\
  TsCallData.Interval data = netDevArgs.Interval args /\
  TsCallData.Interfaces data = netDevArgs.Interfaces args /\
  0 <= TsCallData.BytesRx data <= Int64.max_int /\
  0 <= TsCallData.BytesTx data <= Int64.max_int.
Proof.
  intros Hrun Hin.
  destruct (run_Callback_from_tick _ _ _ _ _ _ Hrun Hin) as (st & st' & fs & effs0 & Ht & Hin0).
  exact (proj2 (tick_effects _ _ _ _ _ _ Ht) data Hin0).
Qed.

Lemma results_carry_the_configuration_witness :
  let args := Examples.args_every time.Second in
  let fs := Examples.source (Examples.header ++ Examples.eth0_line "3000" "0")%string in
  let cancelled := {| done := true; tick_ready := true |} in
  let data :=
    {| TsCallData.Name := "all"%string; TsCallData.BytesTx := 0;
       TsCallData.BytesRx := 2000; TsCallData.Interval := 1000000000;
       TsCallData.Interfaces := None |} in
  run mto.Int64 args (Inner (Examples.running 1000 0), cancelled) ([Callback data] ++ [])
      (Inner (Examples.running 3000 0), {| done := true; tick_ready := false |}) /\
  Callback data ∈ [Callback data] ++ [] /\
  TsCallData.Name data = netDevArgs.Name args.
Proof.
  intros args fs cancelled data.
  assert (Hrun : run mto.Int64 args (Inner (Examples.running 1000 0), cancelled)
                     ([Callback data] ++ [])
                     (Inner (Examples.running 3000 0), {| done := true; tick_ready := false |})).
  { eapply run_step; [|apply run_here].
    apply (step_tick _ _ (Examples.running 1000 0) cancelled fs);
      [reflexivity | vm_compute; reflexivity]. }
  assert (Hin : Callback data ∈ [Callback data] ++ [])
    by (apply list_elem_of_singleton; reflexivity).
  split; [exact Hrun|]. split; [exact Hin|].
  exact (proj1 (results_carry_the_configuration mto.Int64 args _ _ _ data Hrun Hin)).
Defined.

(** X10.  When the total has not gone down and the difference fits an
    int64, the rate is the difference divided by the seconds of the
    interval, rounded down: fewer bytes than the interval has whole
    seconds are reported as 0, and with an interval below two seconds the
    rate is the difference itself. *)
Theorem rate_rounds_the_delta_down
    (toInt64 : string -> Z) (args : netDevArgs.t) (st : loop_state)
    (fs : filesystem) (stats : gmap string tsNetDev) :
  time.Second <= netDevArgs.Interval args <= Int64.max_int ->
  readNetDev toInt64 args fs = Ok stats ->
  firstIteration st = false ->
  exists data,
    tick toInt64 args st fs = Next (stored stats) [Callback data] /\
    let secs := time.SecondsInt64 (netDevArgs.Interval args) in
    (forall delta,
       delta = fst (totals stats) - lastRx st -> 0 <= delta <= Int64.max_int ->
       secs * TsCallData.BytesRx data <= delta < secs * (TsCallData.BytesRx data + 1) /\
       (delta < secs -> TsCallData.BytesRx data = 0) /\
       (netDevArgs.Interval args < 2 * time.Second -> TsCallData.BytesRx data = delta)) /\
    (forall delta,
       delta = snd (totals stats) - lastTx st -> 0 <= delta <= Int64.max_int ->
       secs * TsCallData.BytesTx data <= delta < secs * (TsCallData.BytesTx data + 1) /\
       (delta < secs -> TsCallData.BytesTx data = 0) /\
       (netDevArgs.Interval args < 2 * time.Second -> TsCallData.BytesTx data = delta)).
Proof.
  intros Hd Hr Hf.
  set (d := netDevArgs.Interval args) in *.
  assert (Hd' : 0 < d < 2 ^ 63) by (unfold time.Second, Int64.max_int in Hd; lia).
  assert (Hs : 0 < time.SecondsInt64 d).
  { pose proof (SecondsInt64_nonneg d ltac:(lia)).
    pose proof (proj1 (SecondsInt64_zero_iff d Hd')). lia. }
  assert (Hone : d < 2 * time.Second -> time.SecondsInt64 d = 1).
  { intros Hlt. rewrite SecondsInt64_whole by (unfold time.Second in *; lia).
    unfold time.Second in *. symmetry; apply Z.div_unique with (r := d - 1000000000); lia. }
  eexists. split; [apply tick_rate; assumption|]. cbv zeta. cbn [TsCallData.BytesRx TsCallData.BytesTx].
  fold d. set (secs := time.SecondsInt64 d) in *.
  assert (Hfloor : forall total last delta,
            delta = total - last -> 0 <= delta <= Int64.max_int ->
            let r := Z.max 0 (Z.quot (Int64.sub total last) secs) in
            secs * r <= delta < secs * (r + 1) /\
            (delta < secs -> r = 0) /\ (d < 2 * time.Second -> r = delta)).
  { intros total last delta -> Hdelta r. subst r. unfold Int64.sub.
    rewrite wrap_in_range by (unfold Int64.in_range, Int64.min_int, Int64.max_int in *; lia).
    rewrite Z.quot_div_nonneg by lia.
    pose proof (Z.div_pos (total - last) secs ltac:(lia) Hs) as Hq.
    rewrite Z.max_r by lia.
    pose proof (Z.mul_div_le (total - last) secs Hs).
    pose proof (Z.mul_succ_div_gt (total - last) secs Hs).
    split; [lia|]. split.
    - intros Hlt. apply Z.div_small. lia.
    - intros Hlt. rewrite (Hone Hlt). apply Z.div_1_r. }
  split; intros delta Heq Hdelta; apply Hfloor; assumption.
Qed.

Lemma rate_rounds_the_delta_down_witness :
  let args := Examples.args_every (3 * time.Second) in
  let st := Examples.running 2998 700 in
  let fs := Examples.source (Examples.header ++ Examples.eth0_line "3000" "700")%string in
  let stats : gmap string tsNetDev := {[ "eth0"%string := Examples.eth0_sample 3000 700 ]} in
  time.Second <= netDevArgs.Interval args <= Int64.max_int /\
  readNetDev mto.Int64 args fs = Ok stats /\
  firstIteration st = false /\
  exists data,
    tick mto.Int64 args st fs = Next (stored stats) [Callback data] /\
    TsCallData.BytesRx data = 0.
Proof.
  intros args st fs stats.
  assert (Hd : time.Second <= netDevArgs.Interval args <= Int64.max_int)
    by (split; discriminate).
  assert (Hr : readNetDev mto.Int64 args fs = Ok stats) by (vm_compute; reflexivity).
  split; [exact Hd|]. split; [exact Hr|]. split; [reflexivity|].
  destruct (rate_rounds_the_delta_down mto.Int64 args st fs stats Hd Hr eq_refl)
    as (data & Ht & Hrx & _).
  exists data. split; [exact Ht|].
  assert (Htot : fst (totals stats) - lastRx st = 2) by (vm_compute; reflexivity).
  destruct (Hrx 2 (eq_sym Htot) ltac:(split; discriminate)) as (_ & Hsmall & _).
  apply Hsmall. vm_compute. reflexivity.
Defined.

(** X11.  With an interval above zero and below one second the callback
    is never called: no execution of the goroutine, from whatever state,
    emits a result. *)
Theorem subsecond_sampler_never_calls_back
    (toInt64 : string -> Z) (args : netDevArgs.t) (c c' : config) (effs : list effect) :
  0 < netDevArgs.Interval args < time.Second ->
  run toInt64 args c effs c' ->
  forall data, ~ Callback data ∈ effs.
Proof.
  intros Hd Hrun data Hin.
  destruct (run_Callback_from_tick _ _ _ _ _ _ Hrun Hin) as (st & st' & fs & effs0 & Ht & Hin0).
  destruct (tick_Callback _ _ _ _ _ _ _ Ht Hin0) as (stats & _ & _ & _ & _ & Hnz & _).
  apply Hnz. apply SecondsInt64_zero_iff; unfold time.Second in *; lia.
Qed.

Lemma subsecond_sampler_never_calls_back_witness :
  let args := Examples.args_every 500000000 in
  let fs := Examples.source (Examples.header ++ Examples.eth0_line "3000" "700")%string in
  0 < netDevArgs.Interval args < time.Second /\
  run mto.Int64 args started ([] ++ [] ++ [])
      (Inner (Examples.running 3000 700), {| done := false; tick_ready := false |}) /\
  forall data, ~ Callback data ∈ ([] ++ [] ++ [] : list effect).
Proof.
  intros args fs.
  assert (Hd : 0 < netDevArgs.Interval args < time.Second) by (split; reflexivity).
  assert (Hrun : run mto.Int64 args started ([] ++ [] ++ [])
                     (Inner (Examples.running 3000 700),
                      {| done := false; tick_ready := false |})).
  { eapply run_step; [apply step_start_default; reflexivity|].
    eapply run_outside; [apply (outside_fire initial {| done := false; tick_ready := false |})|].
    eapply run_step; [|apply run_here].
    apply (step_tick _ _ initial {| done := false; tick_ready := true |} fs);
      [reflexivity | vm_compute; reflexivity]. }
  split; [exact Hd|]. split; [exact Hrun|].
  exact (subsecond_sampler_never_calls_back mto.Int64 args _ _ _ Hd Hrun).
Defined.

Section Lifecycle.

Variable toInt64 : string -> Z.
Variable args : netDevArgs.t.

(** With an interval that is not positive the goroutine never enters
    [calculate]'s loop. *)
Lemma run_without_ticker (c c' : config) (effs : list effect) :
  netDevArgs.Interval args <= 0 ->
  run toInt64 args c effs c' ->
  fst c = Outer ->
  effs = [] /\ (fst c' = Outer \/ fst c' = Exited) \/
  effs = [panic_report] /\ fst c' = Recovered.
Proof.
  intros Hd Hrun.
  induction Hrun as [c | c effs c1 effs' c2 Hstep Hrun IH | c c1 effs c2 Hout Hrun IH];
    intros Hc.
  - left. auto.
  - destruct Hstep; cbn in Hc; try discriminate.
    + destruct (run_finished _ _ _ _ _ Hrun (or_introl eq_refl)) as [-> Hfst].
      left. cbn in Hfst. auto.
    + lia.
    + destruct (run_finished _ _ _ _ _ Hrun (or_intror eq_refl)) as [-> Hfst].
      right. cbn in Hfst. auto.
  - apply IH. destruct Hout; cbn in *; [assumption | discriminate].
Qed.

(** The goroutine has returned only if [done] is closed. *)
Lemma run_Exited_done (c c' : config) (effs : list effect) :
  run toInt64 args c effs c' ->
  (fst c = Exited -> done (snd c) = true) ->
  fst c' = Exited -> done (snd c') = true.
Proof.
  intros Hrun.
  induction Hrun as [c | c effs c1 effs' c2 Hstep Hrun IH | c c1 effs c2 Hout Hrun IH];
    intros Hinv; [exact Hinv | |].
  - apply IH. destruct Hstep; cbn; intros; try discriminate; assumption.
  - apply IH. destruct Hout; cbn in *; intros; [reflexivity | discriminate].
Qed.

End Lifecycle.

(** X12.  [NewNetDev] with an interval that is zero or negative starts a
    goroutine that never samples: [time.NewTicker] panics in it, the
    panic is logged once and the goroutine is gone (or it returns
    because [Close] came first); no tick happens and the callback is
    never called. *)
Theorem nonpositive_interval_never_samples
    (toInt64 : string -> Z) (args : netDevArgs.t) (c' : config) (effs : list effect) :
  netDevArgs.Interval args <= 0 ->
  run toInt64 args started effs c' ->
  (effs = [] /\ (fst c' = Outer \/ fst c' = Exited) \/
   effs = [panic_report] /\ fst c' = Recovered) /\
  (forall data, ~ Callback data ∈ effs) /\
  step toInt64 args started [panic_report]
       (Recovered, {| done := false; tick_ready := false |}).
Proof.
  intros Hd Hrun.
  pose proof (run_without_ticker toInt64 args _ _ _ Hd Hrun eq_refl) as Hcases.
  split; [exact Hcases|]. split.
  - intros data Hin. destruct Hcases as [[-> _] | [-> _]].
    + apply elem_of_nil in Hin. contradiction.
    + apply list_elem_of_singleton in Hin. discriminate.
  - apply (step_start_panic toInt64 args {| done := false; tick_ready := false |});
      [reflexivity | exact Hd].
Qed.

Lemma nonpositive_interval_never_samples_witness :
  let args := Examples.args_every 0 in
  netDevArgs.Interval args <= 0 /\
  run mto.Int64 args started ([panic_report] ++ [])
      (Recovered, {| done := false; tick_ready := false |}) /\
  forall data, ~ Callback data ∈ [panic_report] ++ [].
Proof.
  intros args.
  assert (Hd : netDevArgs.Interval args <= 0) by discriminate.
  assert (Hrun : run mto.Int64 args started ([panic_report] ++ [])
                     (Recovered, {| done := false; tick_ready := false |})).
  { eapply run_step; [|apply run_here].
    apply (step_start_panic mto.Int64 args {| done := false; tick_ready := false |});
      [reflexivity | exact Hd]. }
  split; [exact Hd|]. split; [exact Hrun|].
  exact (proj1 (proj2 (nonpositive_interval_never_samples mto.Int64 args _ _ Hd Hrun))).
Defined.

(** X13.  The goroutine returns only through [done]: in every execution
    from the start, if the goroutine has returned then [done] is closed,
    so that a sampler nobody closes stops only by a panic. *)
Theorem goroutine_returns_only_after_Close
    (toInt64 : string -> Z) (args : netDevArgs.t) (c' : config) (effs : list effect) :
  run toInt64 args started effs c' ->
  (fst c' = Exited -> done (snd c') = true) /\
  (done (snd c') = false ->
   fst c' = Outer \/ (exists st, fst c' = Inner st) \/ fst c' = Recovered).
Proof.
  intros Hrun.
  assert (Hex : fst c' = Exited -> done (snd c') = true).
  { apply (run_Exited_done toInt64 args _ _ _ Hrun). cbn. discriminate. }
  split; [exact Hex|]. intros Hopen.
  destruct c' as [[| st | |] ch]; cbn in *; eauto.
  specialize (Hex eq_refl). congruence.
Qed.

Lemma goroutine_returns_only_after_Close_witness :
  let args := Examples.args_every time.Second in
  let closed := {| done := true; tick_ready := false |} in
  run mto.Int64 args started ([] ++ []) (Exited, closed) /\
  (fst (Exited, closed) = Exited -> done (snd (Exited, closed)) = true).
Proof.
  intros args closed.
  assert (Hrun : run mto.Int64 args started ([] ++ []) (Exited, closed)).
  { eapply run_outside;
      [apply (outside_Close Outer {| done := false; tick_ready := false |}); reflexivity|].
    eapply run_step; [apply (step_start_done mto.Int64 args closed); reflexivity|].
    apply run_here. }
  split; [exact Hrun|].
  exact (proj1 (goroutine_returns_only_after_Close mto.Int64 args _ _ Hrun)).
Defined.

(** * The constructor and [Close] *)

Section ConstructorFacts.

Variable C : Type.
Variable logResult : C.

Lemma NewNetDev_snoc (name : string) (interval : Z)
    (opts : list (netDevOpts C)) (opt : netDevOpts C) :
  NewNetDev C logResult name interval (opts ++ [opt]) =
  opt (NewNetDev C logResult name interval opts).
Proof. unfold NewNetDev. rewrite fold_left_app. reflexivity. Qed.

(** The exported options leave the name, the interval and the list of
    interfaces as they are. *)
Lemma exported_keeps (opt : netDevOpts C) (t : netDev.t C) :
  exported C opt ->
  netDevArgs.Name (netDev.args (opt t)) = netDevArgs.Name (netDev.args t) /\
  netDevArgs.Interval (netDev.args (opt t)) = netDevArgs.Interval (netDev.args t) /\
  netDevArgs.Interfaces (netDev.args (opt t)) = netDevArgs.Interfaces (netDev.args t).
Proof. intros [[path ->] | [callback ->]]; cbn; auto. Qed.

Lemma fold_exported_keeps (opts : list (netDevOpts C)) (t : netDev.t C) :
  Forall (exported C) opts ->
  let t' := fold_left (fun t opt => opt t) opts t in
  netDevArgs.Name (netDev.args t') = netDevArgs.Name (netDev.args t) /\
  netDevArgs.Interval (netDev.args t') = netDevArgs.Interval (netDev.args t) /\
  netDevArgs.Interfaces (netDev.args t') = netDevArgs.Interfaces (netDev.args t).
Proof.
  intros Hall. revert t. induction Hall as [|opt opts Hopt Hall IH]; intros t; cbn.
  - auto.
  - destruct (IH (opt t)) as (Hn & Hi & Hl).
    destruct (exported_keeps opt t Hopt) as (Hn' & Hi' & Hl').
    cbn in *. repeat split; congruence.
Qed.

(** Options that set the callback leave the arguments alone, options
    that set the path leave the callback alone. *)
Lemma fold_callbacks_keep_args (opts : list (netDevOpts C)) (t : netDev.t C) :
  Forall (fun opt => exists callback, opt = WithCallback C callback) opts ->
  netDev.args (fold_left (fun t opt => opt t) opts t) = netDev.args t.
Proof.
  intros Hall. revert t. induction Hall as [|opt opts [cb ->] Hall IH]; intros t; cbn;
    [reflexivity|]. rewrite IH. reflexivity.
Qed.

Lemma fold_paths_keep_callback (opts : list (netDevOpts C)) (t : netDev.t C) :
  Forall (fun opt => exists path, opt = WithPath C path) opts ->
  netDev.Callback (fold_left (fun t opt => opt t) opts t) = netDev.Callback t.
Proof.
  intros Hall. revert t. induction Hall as [|opt opts [p ->] Hall IH]; intros t; cbn;
    [reflexivity|]. rewrite IH. reflexivity.
Qed.

End ConstructorFacts.

(** X14.  A sampler built by [NewNetDev] from [WithPath] and
    [WithCallback] options has the name and the interval it was given and
    no list of interfaces, so its reader filters no line out: every line
    with a colon is entered under its name. *)
Theorem NewNetDev_reads_every_interface
    (C : Type) (logResult : C) (name : string) (interval : Z)
    (opts : list (netDevOpts C)) :
  Forall (exported C) opts ->
  let args := netDev.args (NewNetDev C logResult name interval opts) in
  netDevArgs.Name args = name /\
  netDevArgs.Interval args = interval /\
  netDevArgs.Interfaces args = None /\
  (forall ifname, filtered_out args ifname = false) /\
  (forall line,
     kept_name args line = if strings.Contains line ":" then ifname_of line else None).
Proof.
  intros Hall args.
  destruct (fold_exported_keeps C opts (defaults C logResult name interval) Hall)
    as (Hn & Hi & Hl).
  fold (NewNetDev C logResult name interval opts) in Hn, Hi, Hl. fold args in Hn, Hi, Hl.
  cbn in Hn, Hi, Hl.
  assert (Hf : forall ifname, filtered_out args ifname = false)
    by (intros ifname; unfold filtered_out; rewrite Hl; reflexivity).
  repeat split; try assumption.
  intros line. unfold kept_name.
  destruct (strings.Contains line ":"); [|reflexivity].
  destruct (ifname_of line) as [n|]; [|reflexivity]. cbn. rewrite Hf. reflexivity.
Qed.

Lemma NewNetDev_reads_every_interface_witness :
  let opts := [WithPath unit "/tmp/dev"; WithCallback unit tt] in
  Forall (exported unit) opts /\
  netDevArgs.Interfaces (netDev.args (NewNetDev unit tt "all" time.Second opts)) = None.
Proof.
  intros opts.
  assert (Hall : Forall (exported unit) opts).
  { constructor; [left; eexists; reflexivity|].
    constructor; [right; eexists; reflexivity | constructor]. }
  split; [exact Hall|].
  exact (proj1 (proj2 (proj2
           (NewNetDev_reads_every_interface unit tt "all" time.Second opts Hall)))).
Defined.

(** X15.  The options are applied in the order given and the last one of
    a kind wins: the path is that of the last [WithPath], the default
    [/proc/net/dev] when there is none; the callback is that of the last
    [WithCallback], the logging one when there is none. *)
Theorem last_option_wins
    (C : Type) (logResult : C) (name : string) (interval : Z)
    (before after : list (netDevOpts C)) :
  (forall path,
     Forall (fun opt => exists callback, opt = WithCallback C callback) after ->
     netDevArgs.Path
       (netDev.args (NewNetDev C logResult name interval (before ++ WithPath C path :: after)))
     = path) /\
  (forall callback,
     Forall (fun opt => exists path, opt = WithPath C path) after ->
     netDev.Callback (NewNetDev C logResult name interval (before ++ WithCallback C callback :: after))
     = callback) /\
  (Forall (fun opt => exists callback, opt = WithCallback C callback) after ->
   netDevArgs.Path (netDev.args (NewNetDev C logResult name interval after))
   = "/proc/net/dev"%string) /\
  (Forall (fun opt => exists path, opt = WithPath C path) after ->
   netDev.Callback (NewNetDev C logResult name interval after) = logResult).
Proof.
  unfold NewNetDev. repeat split.
  - intros path Hafter. rewrite fold_left_app. cbn [fold_left].
    rewrite (fold_callbacks_keep_args C _ _ Hafter). reflexivity.
  - intros callback Hafter. rewrite fold_left_app. cbn [fold_left].
    rewrite (fold_paths_keep_callback C _ _ Hafter). reflexivity.
  - intros Hafter. rewrite (fold_callbacks_keep_args C _ _ Hafter). reflexivity.
  - intros Hafter. rewrite (fold_paths_keep_callback C _ _ Hafter). reflexivity.
Qed.

Lemma last_option_wins_witness :
  let after := [WithCallback unit tt] in
  Forall (fun opt => exists callback, opt = WithCallback unit callback) after /\
  netDevArgs.Path
    (netDev.args (NewNetDev unit tt "all" time.Second
                    ([WithPath unit "/a"] ++ WithPath unit "/b" :: after)))
  = "/b"%string.
Proof.
  intros after.
  assert (Hafter : Forall (fun opt => exists callback, opt = WithCallback unit callback) after).
  { constructor; [eexists; reflexivity | constructor]. }
  split; [exact Hafter|].
  exact (proj1 (last_option_wins unit tt "all" time.Second [WithPath unit "/a"] after)
           "/b"%string Hafter).
Defined.

(** X16.  [Close] can be called once.  The first call closes [done], after
    which the goroutine can return from either [select] without another
    effect; a second call panics, as does any call once [done] is
    closed. *)
Theorem Close_works_once (ch ch' : channels) :
  Close ch = Some ch' ->
  done ch = false /\ done ch' = true /\ tick_ready ch' = tick_ready ch /\
  Close ch' = None /\
  (forall g, outside (g, ch) (g, ch')) /\
  (forall toInt64 args, run toInt64 args (Outer, ch') [] (Exited, ch')) /\
  (forall toInt64 args st, run toInt64 args (Inner st, ch') [] (Exited, ch')).
Proof.
  unfold Close. destruct (done ch) eqn:Hopen; [discriminate|]. intros [= <-]. cbn.
  split; [reflexivity|]. split; [reflexivity|]. split; [reflexivity|]. split; [reflexivity|].
  set (ch' := {| done := true; tick_ready := tick_ready ch |}).
  assert (Hexit : forall toInt64 args, run toInt64 args (Outer, ch') [] (Exited, ch')).
  { intros toInt64 args.
    apply (run_step toInt64 args _ [] (Exited, ch') [] _);
      [apply step_start_done; reflexivity | apply run_here]. }
  split; [|split].
  - intros g. apply outside_Close, Hopen.
  - exact Hexit.
  - intros toInt64 args st.
    apply (run_step toInt64 args _ [] (Outer, ch') [] _);
      [apply step_done; reflexivity | apply Hexit].
Qed.

Lemma Close_works_once_witness :
  let ch := {| done := false; tick_ready := true |} in
  let ch' := {| done := true; tick_ready := true |} in
  Close ch = Some ch' /\ Close ch' = None.
Proof.
  intros ch ch'. split; [reflexivity|].
  exact (proj1 (proj2 (proj2 (proj2 (Close_works_once ch ch' eq_refl))))).
Defined.
